(** * DevOps Pal chat client: session and message exchange

    A shallow embedding of the two asynchronous handlers of
    [frontend/src/App.jsx], [startSession] and [sendMessage], together with
    the part of the rendered form that gates them ([disabled={loading}]).

    - JavaScript strings are sequences of UTF-16 code units ([list N]).
    - JavaScript values are the values [res.json()] can produce, plus
      [undefined] (the result of reading a missing property).
    - The four [useState] cells, the console and the requests handed to
      [fetch] form one record, [World]; the handlers run in a small
      state-and-exception monad over it.
    - An [async] handler is split at its single [await fetch(...)]: the part
      that runs synchronously when the handler is invoked, and the part that
      runs when the call settles.
    - What [App], [Message] and [renderContent] return is a tree of
      elements ([Node]), read back through [elements], [bubbles] and
      [text_of]. *)

From Stdlib Require Import List String Ascii ZArith NArith Bool Lia.
From Stdlib Require Import Floats.SpecFloat.
Import ListNotations.

Local Open Scope Z_scope.

(** ** JavaScript strings *)

Definition jsstring : Type := list N.

(** An ASCII literal as a sequence of code units. *)
Definition lit (s : string) : jsstring :=
  map N_of_ascii (list_ascii_of_string s).

(** ECMAScript [WhiteSpace] and [LineTerminator] code units, the ones
    [String.prototype.trim] strips. *)
Definition is_space (c : N) : bool :=
  ((9 <=? c) && (c <=? 13)          (* TAB LF VT FF CR *)
   || (c =? 32) || (c =? 160)       (* SP, NBSP *)
   || (c =? 5760)                   (* U+1680 *)
   || ((8192 <=? c) && (c <=? 8202)) (* U+2000 .. U+200A *)
   || (c =? 8232) || (c =? 8233)    (* LS, PS *)
   || (c =? 8239) || (c =? 8287)    (* U+202F, U+205F *)
   || (c =? 12288) || (c =? 65279)  (* U+3000, U+FEFF *))%N.

Fixpoint trimStart (s : jsstring) : jsstring :=
  match s with
  | [] => []
  | c :: s' => if is_space c then trimStart s' else s
  end.

Definition trimEnd (s : jsstring) : jsstring := rev (trimStart (rev s)).

Definition trim (s : jsstring) : jsstring := trimEnd (trimStart s).

(** ** JavaScript values *)

#[local] Set Warnings "-register-all".

Inductive jsval : Type :=
| VUndefined
| VNull
| VBool (b : bool)
| VNum (x : spec_float)
| VStr (s : jsstring)
| VArr (items : list jsval)
| VObj (fields : list (jsstring * jsval)).

(** [ToBoolean]. *)
Definition truthy (v : jsval) : bool :=
  match v with
  | VUndefined | VNull => false
  | VBool b => b
  | VNum (S754_zero _) | VNum S754_nan => false
  | VNum _ => true
  | VStr [] => false
  | VStr (_ :: _) => true
  | VArr _ | VObj _ => true
  end.

Fixpoint jsstring_eqb (a b : jsstring) : bool :=
  match a, b with
  | [], [] => true
  | x :: a', y :: b' => (x =? y)%N && jsstring_eqb a' b'
  | _, _ => false
  end.

(** Own property of a parsed object. *)
Fixpoint lookup_field (k : jsstring) (fields : list (jsstring * jsval))
  : option jsval :=
  match fields with
  | [] => None
  | (k', v) :: rest => if jsstring_eqb k k' then Some v else lookup_field k rest
  end.

(** ** Exceptions, log entries, requests and responses *)

Inductive Exn : Type :=
| FetchFailed                     (* the promise of fetch rejected *)
| ErrorMsg (m : jsstring)         (* new Error(m) *)
| JsonSyntaxError                 (* res.json() rejected *)
| TypeErrorProp (k : jsstring).   (* property k read from null/undefined *)

Inductive LogEntry : Type :=
| LogError (label : jsstring) (e : Exn).   (* console.error(label, e) *)

Record Request : Type := mkRequest {
  url : jsstring;
  method : jsstring;
  headers : list (jsstring * jsstring);
  credentials : jsstring;
  (* the value handed to JSON.stringify, when the request has a body *)
  body : option jsval
}.

Record Response : Type := mkResponse {
  status : Z;
  (* the payload as res.json() decodes it; None when it is not JSON and
     res.json() rejects *)
  payload : option jsval
}.

(** [res.ok]. *)
Definition ok (r : Response) : bool :=
  (200 <=? status r) && (status r <=? 299).

(** How an [await fetch(...)] settles. *)
Inductive FetchOutcome : Type :=
| Rejected
| Resolved (r : Response).

(** ** Component state *)

Inductive Role : Type := user | assistant.

Record Msg : Type := mkMsg { role : Role; content : jsval }.

Record World : Type := mkWorld {
  sessionId : jsval;          (* useState(null) *)
  messages : list Msg;        (* useState([]) *)
  input : jsstring;           (* useState("") *)
  loading : bool;             (* useState(false) *)
  console : list LogEntry;
  network : list Request      (* requests handed to fetch, oldest first *)
}.

Definition initial : World :=
  {| sessionId := VNull; messages := []; input := []; loading := false;
     console := []; network := [] |}.

(** ** The handler monad: state with exceptions that keep the state *)

Inductive Completion (A : Type) : Type :=
| Normal (a : A)
| Throw (e : Exn).
Arguments Normal {A} a.
Arguments Throw {A} e.

Definition M (A : Type) : Type := World -> Completion A * World.

Definition ret {A} (a : A) : M A := fun w => (Normal a, w).

Definition bind {A B} (m : M A) (k : A -> M B) : M B :=
  fun w =>
    match m w with
    | (Normal a, w') => k a w'
    | (Throw e, w') => (Throw e, w')
    end.

Definition throw {A} (e : Exn) : M A := fun w => (Throw e, w).

Declare Scope js_scope.
Delimit Scope js_scope with js.
Notation "x <- m ;; k" := (bind m (fun x => k))
  (at level 61, m at next level, right associativity) : js_scope.
Notation "m ;; k" := (bind m (fun _ => k))
  (at level 61, right associativity) : js_scope.
Local Open Scope js_scope.

(** [try { body } catch (e) { handler e } finally { fin }]. *)
Definition try_catch_finally (body : M unit) (handler : Exn -> M unit)
    (fin : M unit) : M unit :=
  fun w =>
    let '(c, w1) :=
      match body w with
      | (Normal a, w') => (Normal a, w')
      | (Throw e, w') => handler e w'
      end in
    match fin w1 with
    | (Normal _, w2) => (c, w2)
    | (Throw e, w2) => (Throw e, w2)
    end.

Definition read {A} (f : World -> A) : M A := fun w => (Normal (f w), w).

Definition setSessionId (v : jsval) : M unit := fun w =>
  (Normal tt,
   {| sessionId := v; messages := messages w; input := input w;
      loading := loading w; console := console w; network := network w |}).

(** [setMessages] with an updater function; [setMessages([])] is the
    constant updater. *)
Definition setMessages (f : list Msg -> list Msg) : M unit := fun w =>
  (Normal tt,
   {| sessionId := sessionId w; messages := f (messages w); input := input w;
      loading := loading w; console := console w; network := network w |}).

Definition setInput (s : jsstring) : M unit := fun w =>
  (Normal tt,
   {| sessionId := sessionId w; messages := messages w; input := s;
      loading := loading w; console := console w; network := network w |}).

Definition setLoading (b : bool) : M unit := fun w =>
  (Normal tt,
   {| sessionId := sessionId w; messages := messages w; input := input w;
      loading := b; console := console w; network := network w |}).

Definition console_error (label : jsstring) (e : Exn) : M unit := fun w =>
  (Normal tt,
   {| sessionId := sessionId w; messages := messages w; input := input w;
      loading := loading w; console := console w ++ [LogError label e];
      network := network w |}).

(** Calling [fetch]: the request leaves; the handler suspends on it. *)
Definition fetch (r : Request) : M Request := fun w =>
  (Normal r,
   {| sessionId := sessionId w; messages := messages w; input := input w;
      loading := loading w; console := console w;
      network := network w ++ [r] |}).

(** The value of [await fetch(...)] once the call has settled. *)
Definition settled (o : FetchOutcome) : M Response :=
  match o with
  | Rejected => throw FetchFailed
  | Resolved r => ret r
  end.

(** [await res.json()]. *)
Definition json (r : Response) : M jsval :=
  match payload r with
  | Some v => ret v
  | None => throw JsonSyntaxError
  end.

(** [data.k] for a key that no built-in prototype defines (the two keys read
    by the handlers, [session_id] and [response], are such keys). *)
Definition get_prop (data : jsval) (k : jsstring) : M jsval :=
  match data with
  | VUndefined | VNull => throw (TypeErrorProp k)
  | VObj fields =>
      match lookup_field k fields with
      | Some v => ret v
      | None => ret VUndefined
      end
  | _ => ret VUndefined
  end.

(** ** The handlers *)

Definition API_URL : jsstring := lit "http://localhost:5000/api".

Definition fallback_text : jsstring :=
  lit "Sorry, I encountered an error. Please try again.".

Definition fallback : Msg := {| role := assistant; content := VStr fallback_text |}.

Definition start_request : Request :=
  {| url := API_URL ++ lit "/start_session"; method := lit "POST";
     headers := []; credentials := lit "include"; body := None |}.

Definition chat_request (sid message : jsval) : Request :=
  {| url := API_URL ++ lit "/chat"; method := lit "POST";
     headers := [(lit "Content-Type", lit "application/json")];
     credentials := lit "include";
     body := Some (VObj [(lit "session_id", sid); (lit "message", message)]) |}.

(** [startSession], up to its [await fetch]. *)
Definition startSession_invoke : M (option Request) :=
  setLoading true ;;
  r <- fetch start_request ;;
  ret (Some r).

(** [startSession], from the settlement of the call to its end. *)
Definition startSession_resume (o : FetchOutcome) : M unit :=
  try_catch_finally
    (res <- settled o ;;
     data <- json res ;;
     sid <- get_prop data (lit "session_id") ;;
     setSessionId sid ;;
     setMessages (fun _ => []))
    (fun error => console_error (lit "Error starting session:") error)
    (setLoading false).

(** [sendMessage], up to its [await fetch]; [None] when it returns at the
    guard.  ([e.preventDefault()] touches the event only.) *)
Definition sendMessage_invoke : M (option Request) :=
  inp <- read input ;;
  sid <- read sessionId ;;
  if negb (truthy (VStr (trim inp))) || negb (truthy sid) then ret None
  else
    let userMsg := {| role := user; content := VStr inp |} in
    setMessages (fun msgs => msgs ++ [userMsg]) ;;
    setLoading true ;;
    setInput [] ;;
    r <- fetch (chat_request sid (content userMsg)) ;;
    ret (Some r).

(** [sendMessage], from the settlement of the call to its end. *)
Definition sendMessage_resume (o : FetchOutcome) : M unit :=
  try_catch_finally
    (res <- settled o ;;
     (if negb (ok res)
      then throw (ErrorMsg (lit "Network response was not ok"))
      else ret tt) ;;
     data <- json res ;;
     reply <- get_prop data (lit "response") ;;
     if truthy reply
     then setMessages (fun msgs =>
            msgs ++ [{| role := assistant; content := reply |}])
     else ret tt)
    (fun error =>
       console_error (lit "Error sending message:") error ;;
       setMessages (fun msgs => msgs ++ [fallback]))
    (setLoading false).

(** The world a computation leaves behind. *)
Definition exec {A} (m : M A) (w : World) : World := snd (m w).

(** A whole exchange with nothing in between: invocation, then settlement. *)
Definition sendMessage_run (o : FetchOutcome) (w : World) : World :=
  match sendMessage_invoke w with
  | (Normal (Some _), w1) => exec (sendMessage_resume o) w1
  | (_, w1) => w1
  end.

Definition startSession_run (o : FetchOutcome) (w : World) : World :=
  match startSession_invoke w with
  | (Normal (Some _), w1) => exec (startSession_resume o) w1
  | (_, w1) => w1
  end.

(** The precondition of [sendMessage], as its guard tests it. *)
Definition can_send (w : World) : bool :=
  truthy (VStr (trim (input w))) && truthy (sessionId w).

(** ** The rendered form: which events can reach the handlers

    Both buttons that call [startSession] carry [disabled={loading}]; the
    text input carries [disabled={loading}] and, like the form, is rendered
    only when [sessionId] is truthy; the send button carries
    [disabled={loading || !input.trim()}], and Enter in the input calls
    [sendMessage] as well.  A call that was handed to [fetch] stays
    outstanding until it settles. *)

Inductive Handler : Type := HStart | HSend.

Definition invoke_part (h : Handler) : M (option Request) :=
  match h with
  | HStart => startSession_invoke
  | HSend => sendMessage_invoke
  end.

Definition resume_part (h : Handler) : FetchOutcome -> M unit :=
  match h with
  | HStart => startSession_resume
  | HSend => sendMessage_resume
  end.

Record UI : Type := mkUI {
  world : World;
  pending : list Handler   (* handlers suspended on their fetch *)
}.

Definition ui_initial : UI := {| world := initial; pending := [] |}.

Definition call (h : Handler) (u : UI) : UI :=
  match invoke_part h (world u) with
  | (Normal (Some _), w') => {| world := w'; pending := pending u ++ [h] |}
  | (_, w') => {| world := w'; pending := pending u |}
  end.

Fixpoint remove_nth {A} (i : nat) (l : list A) : list A :=
  match l, i with
  | [], _ => []
  | _ :: l', O => l'
  | x :: l', S i' => x :: remove_nth i' l'
  end.

Inductive Event : Type :=
| ClickStart                              (* onClick={startSession} *)
| Change (s : jsstring)                   (* onChange: setInput(e.target.value) *)
| Submit                                  (* onSubmit / Enter: sendMessage(e) *)
| Settle (i : nat) (o : FetchOutcome).    (* the i-th outstanding call settles *)

Definition enabled (u : UI) (e : Event) : bool :=
  match e with
  | ClickStart => negb (loading (world u))
  | Change _ | Submit =>
      truthy (sessionId (world u)) && negb (loading (world u))
  | Settle i _ => (i <? List.length (pending u))%nat
  end.

Definition step (u : UI) (e : Event) : UI :=
  match e with
  | ClickStart => call HStart u
  | Change s => {| world := exec (setInput s) (world u); pending := pending u |}
  | Submit => call HSend u
  | Settle i o =>
      match nth_error (pending u) i with
      | Some h => {| world := exec (resume_part h o) (world u);
                     pending := remove_nth i (pending u) |}
      | None => u
      end
  end.

(** Runs a sequence of events; [None] when one of them is not enabled. *)
Fixpoint run_events (evs : list Event) (u : UI) : option UI :=
  match evs with
  | [] => Some u
  | e :: rest => if enabled u e then run_events rest (step u e) else None
  end.

(** The event settles a [startSession] call. *)
Definition settles_start (u : UI) (e : Event) : bool :=
  match e with
  | Settle i _ =>
      match nth_error (pending u) i with
      | Some HStart => true
      | _ => false
      end
  | _ => false
  end.

(** ** What the component renders

    The tree returned by [App], with the props the handlers and the
    [disabled] logic depend on.  The text of the global style sheet is not
    represented ([Style] stands for the element). *)

Inductive Attr : Type :=
| Key (i : nat)
| Disabled (b : bool)
| OnClick (h : Handler)     (* onClick={startSession} *)
| OnSubmit (h : Handler)    (* onSubmit={sendMessage} *)
| OnChange                  (* (e) => setInput(e.target.value) *)
| OnKeyDown                 (* Enter without Shift: sendMessage(e) *)
| Type_ (t : string)
| Value (s : jsstring)
| Placeholder (s : string)
| AriaLabel (s : string)
| Ref.                      (* ref={messagesEndRef} *)

Inductive Node : Type :=
| El (tag className : string) (attrs : list Attr) (children : list Node)
| Frag (key : option nat) (children : list Node)
| Txt (s : jsstring)
| Raw (v : jsval)           (* a non-string value handed on as it is *)
| Icon (name className : string) (size : option Z)
| Style.

(** What [Message] receives as [content]: a transcript value, or an element
    (the spinner). *)
Inductive Content : Type :=
| CVal (v : jsval)
| CElem (n : Node).

Definition newline : N := 10%N.

(** [s.split(sep)] for a one-unit separator. *)
Fixpoint js_split (sep : N) (s : jsstring) : list jsstring :=
  match s with
  | [] => [[]]
  | c :: s' =>
      if (c =? sep)%N then [] :: js_split sep s'
      else match js_split sep s' with
           | line :: lines => (c :: line) :: lines
           | [] => [[c]]
           end
  end.

(** [arr.map((x, i) => f x i)], counting from [i]. *)
Fixpoint mapi_from {A B} (i : nat) (f : A -> nat -> B) (l : list A) : list B :=
  match l with
  | [] => []
  | x :: l' => f x i :: mapi_from (S i) f l'
  end.

Definition mapi {A B} (f : A -> nat -> B) (l : list A) : list B :=
  mapi_from 0 f l.

Definition br : Node := El "br" "" [] [].

(** [renderContent]: a string becomes one fragment per line, each but the
    last followed by [<br />]; anything else is returned as it is. *)
Definition renderContent (text : Content) : list Node :=
  match text with
  | CVal (VStr s) =>
      let arr := js_split newline s in
      mapi (fun line i =>
              Frag (Some i)
                (Txt line
                 :: if (i <? List.length arr - 1)%nat then [br] else []))
           arr
  | CVal v => [Raw v]
  | CElem n => [n]
  end.

(** One rendered line: the text, then [<br />] unless it is the last. *)
Definition line_fragment (n : nat) (line : jsstring) (i : nat) : Node :=
  Frag (Some i) (Txt line :: if (i <? n - 1)%nat then [br] else []).

Definition role_name (r : Role) : string :=
  match r with
  | user => "user"
  | assistant => "assistant"
  end.

Definition Message (key : option nat) (r : Role) (c : Content) : Node :=
  El "div" ("message " ++ role_name r)
    (match key with Some i => [Key i] | None => [] end)
    [El "div" "message-avatar" []
       [match r with
        | user => Icon "FiUser" "" None
        | assistant => Icon "FiMessageSquare" "" None
        end];
     El "div" "message-content" [] (renderContent c)].

Definition LoadingSpinner : Node :=
  El "div" "loading-spinner" [] [Icon "FiRefreshCw" "animate-spin" None].

Definition welcome_screen (w : World) : Node :=
  El "div" "welcome-screen" []
    [El "h2" "" [] [Txt (lit "Welcome to DevOps Pal")];
     El "p" "" [] [Txt (lit "Get help with your DevOps tasks and questions")];
     El "button" "primary-button" [OnClick HStart; Disabled (loading w)]
       [Txt (if loading w then lit "Starting..." else lit "Start New Chat")]].

Definition messages_container (w : World) : Node :=
  El "div" "messages-container" []
    ((match messages w with
      | [] =>
          [El "div" "empty-state" []
             [Icon "FiMessageSquare" "" (Some 48);
              El "h3" "" [] [Txt (lit "How can I help you today?")];
              El "p" "" []
                [Txt (lit "Ask me anything about DevOps, CI/CD, cloud, or infrastructure.")]]]
      | _ :: _ =>
          mapi (fun msg i => Message (Some i) (role msg) (CVal (content msg)))
               (messages w)
      end)
     ++ (if loading w then [Message None assistant (CElem LoadingSpinner)]
         else [])
     ++ [El "div" "" [Ref] []]).

Definition message_form (w : World) : Node :=
  El "form" "message-form" [OnSubmit HSend]
    [El "div" "input-container" []
       [El "input" ""
          [Type_ "text"; Value (input w); OnChange;
           Placeholder "Type your message..."; Disabled (loading w); OnKeyDown]
          [];
        El "button" "send-button"
          [Type_ "submit";
           Disabled (loading w || negb (truthy (VStr (trim (input w)))));
           AriaLabel "Send message"]
          [Icon "FiSend" "" None]];
     El "div" "chat-actions" []
       [El "button" "secondary-button"
          [Type_ "button"; OnClick HStart; Disabled (loading w)]
          [Icon "FiRefreshCw" "" None; Txt (lit " New Chat")]]].

Definition App (w : World) : Node :=
  El "div" "app-container" []
    [El "header" "app-header" []
       [El "h1" "" [] [Txt (lit "DevOps Pal")];
        El "p" "" [] [Txt (lit "Your AI-powered DevOps assistant")]];
     El "main" "chat-container" []
       (if negb (truthy (sessionId w)) then [welcome_screen w]
        else [messages_container w; message_form w]);
     Style].

(** [arr.join(sep)] for a one-unit separator. *)
Fixpoint js_join (sep : N) (lines : list jsstring) : jsstring :=
  match lines with
  | [] => []
  | [line] => line
  | line :: rest => line ++ sep :: js_join sep rest
  end.

(** *** Reading the tree *)

Record Elem : Type := mkElem {
  e_tag : string;
  e_class : string;
  e_attrs : list Attr
}.

(** All elements of a tree, in document order. *)
Fixpoint elements (n : Node) : list Elem :=
  match n with
  | El tag cls attrs kids =>
      {| e_tag := tag; e_class := cls; e_attrs := attrs |}
      :: flat_map elements kids
  | Frag _ kids => flat_map elements kids
  | _ => []
  end.

Definition is_disabled (attrs : list Attr) : bool :=
  existsb (fun a => match a with Disabled true => true | _ => false end) attrs.

(** A form control: what [disabled] applies to. *)
Definition is_control (e : Elem) : bool :=
  String.eqb (e_tag e) "button" || String.eqb (e_tag e) "input".

(** Some element that is not disabled carries an attribute satisfying [p]. *)
Definition live (p : Attr -> bool) (n : Node) : bool :=
  existsb (fun e => existsb p (e_attrs e) && negb (is_disabled (e_attrs e)))
          (elements n).

Definition calls_start (a : Attr) : bool :=
  match a with OnClick HStart => true | _ => false end.

Definition is_OnChange (a : Attr) : bool :=
  match a with OnChange => true | _ => false end.


Definition is_submit (a : Attr) : bool :=
  match a with Type_ t => String.eqb t "submit" | _ => false end.

Definition is_br (e : Elem) : bool := String.eqb (e_tag e) "br".

(** An element that is no form control and carries no handler: its only
    attributes are a key or a ref. *)
Definition plain (e : Elem) : bool :=
  negb (is_control e)
  && forallb (fun a => match a with Key _ | Ref => true | _ => false end)
             (e_attrs e).


(** The text a tree shows, a [<br />] read as a line feed. *)
Fixpoint text_of (n : Node) : jsstring :=
  match n with
  | Txt s => s
  | El tag _ _ kids =>
      if String.eqb tag "br" then [newline] else flat_map text_of kids
  | Frag _ kids => flat_map text_of kids
  | _ => []
  end.

(** The message bubbles of a tree: class and text of every element whose
    class is [message <role>]. *)
Fixpoint bubbles (n : Node) : list (string * jsstring) :=
  match n with
  | El _ cls _ kids =>
      if String.prefix "message " cls then [(cls, flat_map text_of kids)]
      else flat_map bubbles kids
  | Frag _ kids => flat_map bubbles kids
  | _ => []
  end.

(** ** Shapes of the transcript *)

(** Every assistant message comes directly after a user message;
    [prev_user] tells whether the message before the list is a user message. *)
Fixpoint replies_follow (prev_user : bool) (msgs : list Msg) : bool :=
  match msgs with
  | [] => true
  | m :: rest =>
      match role m with
      | user => replies_follow true rest
      | assistant => prev_user && replies_follow false rest
      end
  end.

(** The last message is a user message ([prev_user] for the empty list). *)
Fixpoint ends_with_user (prev_user : bool) (msgs : list Msg) : bool :=
  match msgs with
  | [] => prev_user
  | m :: rest =>
      ends_with_user (match role m with user => true | assistant => false end)
                     rest
  end.

Definition has_content (m : Msg) : bool := truthy (content m).

(** While a send is outstanding: the transcript ends with the user message
    of that send, and the last request issued carries its text under the
    session identifier still held. *)
Definition awaiting_reply (u : UI) : Prop :=
  match pending u with
  | [HSend] =>
      exists old text net,
        messages (world u) = old ++ [{| role := user; content := VStr text |}]
        /\ network (world u)
           = net ++ [chat_request (sessionId (world u)) (VStr text)]
        /\ truthy (sessionId (world u)) = true
  | _ => True
  end.

Definition text_msg (m : Msg) : jsstring :=
  match content m with
  | VStr s => s
  | _ => []
  end.

Definition is_text (m : Msg) : bool :=
  match content m with
  | VStr _ => true
  | _ => false
  end.

(** How a transcript entry with a string content shows: class and text. *)
Definition bubble_of (m : Msg) : string * jsstring :=
  (("message " ++ role_name (role m))%string, text_msg m).

(** What [data.k] evaluates to when [data] is neither [null] nor
    [undefined]: the own property, or [undefined]. *)
Definition prop_or_undefined (data : jsval) (k : jsstring) : jsval :=
  match data with
  | VObj fields =>
      match lookup_field k fields with
      | Some v => v
      | None => VUndefined
      end
  | _ => VUndefined
  end.

Definition is_user (m : Msg) : bool :=
  match role m with user => true | assistant => false end.

Definition is_assistant (m : Msg) : bool :=
  match role m with user => false | assistant => true end.

(** What the enabled events do to a state that satisfies the flag
    invariant. *)
Inductive Moves (u : UI) : Event -> UI -> Prop :=
| move_start :
    pending u = [] ->
    Moves u ClickStart
      {| world := exec startSession_invoke (world u); pending := [HStart] |}
| move_change s :
    pending u = [] ->
    Moves u (Change s)
      {| world := exec (setInput s) (world u); pending := [] |}
| move_skip :
    pending u = [] -> can_send (world u) = false ->
    Moves u Submit {| world := world u; pending := [] |}
| move_send :
    pending u = [] -> can_send (world u) = true ->
    Moves u Submit
      {| world := exec sendMessage_invoke (world u); pending := [HSend] |}
| move_settle h o :
    pending u = [h] ->
    Moves u (Settle 0 o)
      {| world := exec (resume_part h o) (world u); pending := [] |}.

(** ** Vocabulary of the statements *)

(** The exchange outcomes on which the [try] block of [sendMessage] throws. *)
Inductive ExchangeFailure : FetchOutcome -> Prop :=
| fail_rejected : ExchangeFailure Rejected
| fail_status r : ok r = false -> ExchangeFailure (Resolved r)
| fail_malformed r : payload r = None -> ExchangeFailure (Resolved r)
| fail_null r : payload r = Some VNull -> ExchangeFailure (Resolved r)
(* not a value res.json() yields; listed so that the cases cover [jsval] *)
| fail_undefined r : payload r = Some VUndefined -> ExchangeFailure (Resolved r).

Definition append_msg (m : Msg) (w : World) : World :=
  {| sessionId := sessionId w; messages := messages w ++ [m]; input := input w;
     loading := loading w; console := console w; network := network w |}.

Definition idle (w : World) : World :=
  {| sessionId := sessionId w; messages := messages w; input := input w;
     loading := false; console := console w; network := network w |}.

(** The outcomes on which the [try] block of [startSession] throws. *)
Inductive StartFailure : FetchOutcome -> Prop :=
| start_rejected : StartFailure Rejected
| start_malformed r : payload r = None -> StartFailure (Resolved r)
| start_null r : payload r = Some VNull -> StartFailure (Resolved r).

(** The text a send carries, were it the trimmed input: the request body and
    the appended user message both hold [trim (input w)]. *)
Definition carries_trimmed_text (w : World) : Prop :=
  forall req w1,
    sendMessage_invoke w = (Normal (Some req), w1) ->
    body req
    = Some (VObj [(lit "session_id", sessionId w);
                  (lit "message", VStr (trim (input w)))])
    /\ messages w1
       = messages w ++ [{| role := user; content := VStr (trim (input w)) |}].

(** What holds between events: nothing outstanding and the flag down, or one
    call outstanding and the flag up; while a send is outstanding the input
    is the empty string it was set to. *)
Definition ui_inv (u : UI) : Prop :=
  match pending u with
  | [] => loading (world u) = false
  | [HStart] => loading (world u) = true
  | [HSend] => loading (world u) = true /\ input (world u) = []
  | _ => False
  end.

(** The flag as C9 words it: up exactly while a send is outstanding. *)
Definition flag_marks_send (u : UI) : Prop :=
  loading (world u) = true <-> In HSend (pending u).

(** Worlds, responses and event sequences used in the examples. *)

Definition session (sid : string) (typed : string) (msgs : list Msg) : World :=
  {| sessionId := VStr (lit sid); messages := msgs; input := lit typed;
     loading := false; console := []; network := [] |}.

Definition said (r : Role) (text : string) : Msg :=
  {| role := r; content := VStr (lit text) |}.

Definition reply_with (st : Z) (fields : list (jsstring * jsval)) : Response :=
  {| status := st; payload := Some (VObj fields) |}.

(** An HTTP 500 whose payload is not JSON. *)
Definition server_error : Response := {| status := 500; payload := None |}.

Definition deploying : list (jsstring * jsval) :=
  [(lit "response", VStr (lit "Deploying..."))].

(** A session is started, a message is typed and submitted. *)
Definition exchange_events (sid text : string) : list Event :=
  [ClickStart;
   Settle 0 (Resolved (reply_with 200 [(lit "session_id", VStr (lit sid))]));
   Change (lit text);
   Submit].

Definition after (evs : list Event) : UI :=
  match run_events evs ui_initial with
  | Some u => u
  | None => ui_initial
  end.

(** Reachable states keep all three: the flag invariant, replies directly
    after user messages, and the shape of a state that awaits a reply. *)
Definition chat_inv (u : UI) : Prop :=
  ui_inv u
  /\ replies_follow false (messages (world u)) = true
  /\ awaiting_reply u.

(** * Properties *)

(** ** Basic facts about the handlers *)

Lemma guard_can_send w :
  negb (truthy (VStr (trim (input w)))) || negb (truthy (sessionId w))
  = negb (can_send w).
Proof. unfold can_send. now rewrite negb_andb. Qed.

Lemma sendMessage_invoke_skip w :
  can_send w = false -> sendMessage_invoke w = (Normal None, w).
Proof.
  intros H. unfold sendMessage_invoke, bind, read.
  rewrite guard_can_send, H. reflexivity.
Qed.

Lemma sendMessage_invoke_ok w :
  can_send w = true ->
  sendMessage_invoke w =
  (Normal (Some (chat_request (sessionId w) (VStr (input w)))),
   {| sessionId := sessionId w;
      messages := messages w ++ [{| role := user; content := VStr (input w) |}];
      input := [];
      loading := true;
      console := console w;
      network := network w ++ [chat_request (sessionId w) (VStr (input w))] |}).
Proof.
  intros H. unfold sendMessage_invoke, bind, read.
  rewrite guard_can_send, H. reflexivity.
Qed.

Ltac resume_failure_case Hok H :=
  eexists;
  unfold sendMessage_resume, try_catch_finally, bind, json; simpl;
  rewrite Hok; try rewrite H; reflexivity.

Lemma sendMessage_resume_failure o w :
  ExchangeFailure o ->
  exists e,
    sendMessage_resume o w =
    (Normal tt,
     {| sessionId := sessionId w; messages := messages w ++ [fallback];
        input := input w; loading := false;
        console := console w ++ [LogError (lit "Error sending message:") e];
        network := network w |}).
Proof.
  intros F. destruct F as [| r H | r H | r H | r H].
  - eexists. reflexivity.
  - eexists. unfold sendMessage_resume, try_catch_finally, bind. simpl.
    rewrite H. reflexivity.
  - destruct (ok r) eqn:Hok; resume_failure_case Hok H.
  - destruct (ok r) eqn:Hok; resume_failure_case Hok H.
  - destruct (ok r) eqn:Hok; resume_failure_case Hok H.
Qed.

(** With a 2xx status and a decoded, non-null payload the [try] block
    completes, and what it appends is decided by the [response] property. *)
Lemma sendMessage_resume_decoded r data reply w :
  ok r = true -> payload r = Some data ->
  (forall w', get_prop data (lit "response") w' = (Normal reply, w')) ->
  sendMessage_resume (Resolved r) w =
  (Normal tt,
   if truthy reply
   then idle (append_msg {| role := assistant; content := reply |} w)
   else idle w).
Proof.
  intros Hok Hp Hg.
  unfold sendMessage_resume, try_catch_finally, bind, json. simpl.
  rewrite Hok, Hp. simpl. rewrite Hg.
  destruct (truthy reply); reflexivity.
Qed.

Lemma get_prop_field fields k v w :
  lookup_field k fields = Some v -> get_prop (VObj fields) k w = (Normal v, w).
Proof. intros H. unfold get_prop. now rewrite H. Qed.

Lemma get_prop_missing fields k w :
  lookup_field k fields = None ->
  get_prop (VObj fields) k w = (Normal VUndefined, w).
Proof. intros H. unfold get_prop. now rewrite H. Qed.

(** The [try] block of [sendMessage] throws exactly on [ExchangeFailure]. *)
Lemma ExchangeFailure_complete o w :
  ~ ExchangeFailure o ->
  console (exec (sendMessage_resume o) w) = console w.
Proof.
  intros NF. destruct o as [| r].
  - destruct NF. constructor.
  - destruct (ok r) eqn:Hok; [| destruct NF; now constructor].
    destruct (payload r) as [data |] eqn:Hp; [| destruct NF; now constructor 3].
    unfold exec, sendMessage_resume, try_catch_finally, bind, json. simpl.
    rewrite Hok, Hp. simpl.
    destruct data as [| | b | x | s | items | fields]; simpl;
      try reflexivity.
    + destruct NF. now constructor 5.
    + destruct NF. now constructor 4.
    + destruct (lookup_field (lit "response") fields) as [v |]; simpl;
        [destruct (truthy v) |]; reflexivity.
Qed.

(** ** Sending a message *)

(** C1. A send with a valid precondition whose call resolves with a 2xx
    status and a non-empty [response] string X grows the transcript by exactly
    two entries: the user message is there as soon as the handler has
    suspended on [fetch], before the call settles, and the assistant message
    with content X is appended at settlement. *)
Theorem send_reply_grows_by_two w r fields X :
  can_send w = true ->
  ok r = true ->
  payload r = Some (VObj fields) ->
  lookup_field (lit "response") fields = Some (VStr X) ->
  X <> [] ->
  let userMsg := {| role := user; content := VStr (input w) |} in
  let w1 := exec sendMessage_invoke w in
  let w2 := exec (sendMessage_resume (Resolved r)) w1 in
  (exists req, sendMessage_invoke w = (Normal (Some req), w1)
               /\ network w1 = network w ++ [req])
  /\ messages w1 = messages w ++ [userMsg]
  /\ messages w2
     = messages w ++ [userMsg; {| role := assistant; content := VStr X |}]
  /\ List.length (messages w2) = (List.length (messages w) + 2)%nat
  /\ sendMessage_run (Resolved r) w = w2.
Proof.
  intros Hc Hok Hp Hf HX userMsg w1 w2.
  assert (E1 : sendMessage_invoke w
               = (Normal (Some (chat_request (sessionId w) (VStr (input w)))), w1)).
  { unfold w1, exec. rewrite (sendMessage_invoke_ok w Hc). reflexivity. }
  assert (M1 : messages w1 = messages w ++ [userMsg]).
  { unfold w1, exec. rewrite (sendMessage_invoke_ok w Hc). reflexivity. }
  assert (M2 : messages w2
               = messages w1 ++ [{| role := assistant; content := VStr X |}]).
  { unfold w2, exec.
    rewrite (sendMessage_resume_decoded r (VObj fields) (VStr X) w1 Hok Hp
               (fun w' => get_prop_field fields _ _ w' Hf)).
    destruct X as [| c X']; [congruence | reflexivity]. }
  split; [| split; [| split; [| split]]].
  - eexists. split; [exact E1 |].
    unfold w1, exec. rewrite (sendMessage_invoke_ok w Hc). reflexivity.
  - exact M1.
  - rewrite M2, M1, <- app_assoc. reflexivity.
  - rewrite M2, M1, !length_app. simpl. lia.
  - unfold sendMessage_run. rewrite E1. reflexivity.
Qed.

Lemma send_reply_grows_by_two_witness :
  can_send (session "s1" "deploy app" []) = true
  /\ messages (sendMessage_run (Resolved (reply_with 200 deploying))
                 (session "s1" "deploy app" []))
     = [said user "deploy app"; said assistant "Deploying..."].
Proof.
  split; [reflexivity |].
  destruct (send_reply_grows_by_two (session "s1" "deploy app" [])
              (reply_with 200 deploying) deploying (lit "Deploying...")
              eq_refl eq_refl eq_refl eq_refl)
    as (_ & _ & H2 & _ & Hrun).
  - discriminate.
  - rewrite Hrun, H2. reflexivity.
Defined.

(** C2. A send with a valid precondition whose call fails (the promise of
    [fetch] rejects, the status is not 2xx, the payload does not decode, or
    reading the reply throws) appends exactly one assistant message, with the
    fixed fallback text, after the user message, which stays in place. *)
Theorem send_failure_appends_fallback w o :
  can_send w = true ->
  ExchangeFailure o ->
  let userMsg := {| role := user; content := VStr (input w) |} in
  let w1 := exec sendMessage_invoke w in
  let w2 := exec (sendMessage_resume o) w1 in
  messages w1 = messages w ++ [userMsg]
  /\ messages w2 = messages w ++ [userMsg; fallback]
  /\ fallback
     = {| role := assistant;
          content :=
            VStr (lit "Sorry, I encountered an error. Please try again.") |}
  /\ (exists e, console w2
                = console w ++ [LogError (lit "Error sending message:") e])
  /\ sendMessage_run o w = w2.
Proof.
  intros Hc F userMsg w1 w2.
  assert (M1 : messages w1 = messages w ++ [userMsg]).
  { unfold w1, exec. rewrite (sendMessage_invoke_ok w Hc). reflexivity. }
  assert (C1 : console w1 = console w).
  { unfold w1, exec. rewrite (sendMessage_invoke_ok w Hc). reflexivity. }
  destruct (sendMessage_resume_failure o w1 F) as [e He].
  split; [exact M1 |]. split; [| split; [reflexivity | split]].
  - unfold w2, exec. rewrite He. simpl. rewrite M1, <- app_assoc. reflexivity.
  - exists e. unfold w2, exec. rewrite He. simpl. now rewrite C1.
  - unfold sendMessage_run.
    rewrite (sendMessage_invoke_ok w Hc). fold w2.
    unfold w2, w1, exec. rewrite (sendMessage_invoke_ok w Hc). reflexivity.
Qed.

Lemma send_failure_appends_fallback_witness :
  can_send (session "s1" "fail me" []) = true
  /\ messages (sendMessage_run (Resolved server_error)
                 (session "s1" "fail me" []))
     = [said user "fail me";
        said assistant "Sorry, I encountered an error. Please try again."].
Proof.
  split; [reflexivity |].
  destruct (send_failure_appends_fallback (session "s1" "fail me" [])
              (Resolved server_error)
              eq_refl (fail_status server_error eq_refl))
    as (_ & H2 & _ & _ & Hrun).
  rewrite Hrun, H2. reflexivity.
Defined.

Example trim_padded : trim (lit "  hi ") = lit "hi".
Proof. reflexivity. Qed.

Example trim_blank : trim (lit "   ") = [].
Proof. reflexivity. Qed.

(** C5, as stated, fails: with the input ["  hi "] the precondition holds and
    the text carried is the input with its surrounding spaces, not ["hi"]. *)
Lemma carries_trimmed_text_fails :
  can_send (session "s1" "  hi " []) = true
  /\ ~ carries_trimmed_text (session "s1" "  hi " []).
Proof.
  split; [reflexivity |].
  intros H.
  destruct (H _ _ (sendMessage_invoke_ok (session "s1" "  hi " []) eq_refl))
    as [Hbody _].
  vm_compute in Hbody. discriminate Hbody.
Qed.

(** C5, amended. A send with a valid precondition carries the input text as
    it stands in the input field, untrimmed, both in the [message] of the
    request body and in the content of the appended user message; trimming
    only decides the precondition. *)
Theorem send_carries_input_verbatim w :
  can_send w = true ->
  exists req w1,
    sendMessage_invoke w = (Normal (Some req), w1)
    /\ body req
       = Some (VObj [(lit "session_id", sessionId w);
                     (lit "message", VStr (input w))])
    /\ messages w1
       = messages w ++ [{| role := user; content := VStr (input w) |}].
Proof.
  intros Hc. do 2 eexists.
  split; [exact (sendMessage_invoke_ok w Hc) |].
  split; reflexivity.
Qed.

Lemma send_carries_input_verbatim_witness :
  can_send (session "s1" "  hi " []) = true
  /\ exists req w1,
       sendMessage_invoke (session "s1" "  hi " []) = (Normal (Some req), w1)
       /\ body req
          = Some (VObj [(lit "session_id", VStr (lit "s1"));
                        (lit "message", VStr (lit "  hi "))])
       /\ messages w1 = [said user "  hi "].
Proof.
  split; [reflexivity |].
  exact (send_carries_input_verbatim (session "s1" "  hi " []) eq_refl).
Defined.

Lemma trim_empty_falsy s : trim s = [] -> truthy (VStr (trim s)) = false.
Proof. intros H. now rewrite H. Qed.

(** C7. When the input is empty after trimming, or the held session
    identifier is falsy ([null], as before the first session), [sendMessage]
    returns at its guard: it hands nothing to [fetch], does not suspend, and
    leaves every component of the state as it was. *)
Theorem send_precondition_skip w :
  trim (input w) = [] \/ truthy (sessionId w) = false ->
  sendMessage_invoke w = (Normal None, w)
  /\ network (exec sendMessage_invoke w) = network w
  /\ forall o, sendMessage_run o w = w.
Proof.
  intros H.
  assert (Hc : can_send w = false).
  { unfold can_send. destruct H as [H | H].
    - now rewrite (trim_empty_falsy _ H).
    - rewrite H. apply andb_false_r. }
  pose proof (sendMessage_invoke_skip w Hc) as E.
  split; [exact E |]. split.
  - unfold exec. now rewrite E.
  - intros o. unfold sendMessage_run. now rewrite E.
Qed.

Lemma send_precondition_skip_witness :
  (trim (input (session "s1" "   " [said user "a"])) = []
   /\ sendMessage_invoke (session "s1" "   " [said user "a"])
      = (Normal None, session "s1" "   " [said user "a"]))
  /\ (truthy (sessionId initial) = false
      /\ forall o, sendMessage_run o initial = initial).
Proof.
  split.
  - split; [reflexivity |].
    exact (proj1 (send_precondition_skip (session "s1" "   " [said user "a"])
                    (or_introl eq_refl))).
  - split; [reflexivity |].
    exact (proj2 (proj2 (send_precondition_skip initial (or_intror eq_refl)))).
Defined.

(** C8. A send with a valid precondition whose call resolves with a 2xx
    status and an object without a [response] property appends no assistant
    message and takes no error path (nothing is logged): the transcript grows
    by the user message only. *)
Theorem send_without_response_field w r fields :
  can_send w = true ->
  ok r = true ->
  payload r = Some (VObj fields) ->
  lookup_field (lit "response") fields = None ->
  let userMsg := {| role := user; content := VStr (input w) |} in
  let w2 := sendMessage_run (Resolved r) w in
  messages w2 = messages w ++ [userMsg]
  /\ List.length (messages w2) = (List.length (messages w) + 1)%nat
  /\ console w2 = console w
  /\ loading w2 = false.
Proof.
  intros Hc Hok Hp Hf userMsg w2.
  assert (E : w2 = idle (exec sendMessage_invoke w)).
  { unfold w2, sendMessage_run, exec.
    rewrite (sendMessage_invoke_ok w Hc). cbn [snd].
    now rewrite (sendMessage_resume_decoded r (VObj fields) VUndefined _ Hok Hp
                   (fun w' => get_prop_missing fields _ w' Hf)). }
  rewrite E. unfold exec. rewrite (sendMessage_invoke_ok w Hc). cbn.
  repeat split. rewrite length_app. reflexivity.
Qed.

Lemma send_without_response_field_witness :
  can_send (session "s1" "ping" []) = true
  /\ messages (sendMessage_run (Resolved (reply_with 200 []))
                 (session "s1" "ping" []))
     = [said user "ping"].
Proof.
  split; [reflexivity |].
  exact (proj1 (send_without_response_field (session "s1" "ping" [])
                  (reply_with 200 []) [] eq_refl eq_refl eq_refl eq_refl)).
Defined.

(** ** Starting a session *)

Lemma startSession_invoke_eq w :
  startSession_invoke w =
  (Normal (Some start_request),
   {| sessionId := sessionId w; messages := messages w; input := input w;
      loading := true; console := console w;
      network := network w ++ [start_request] |}).
Proof. reflexivity. Qed.

(** Whatever the status, a decoded payload whose [session_id] can be read
    replaces the identifier and empties the transcript: [startSession] never
    looks at [res.ok]. *)
Lemma startSession_resume_decoded r data sid w :
  payload r = Some data ->
  (forall w', get_prop data (lit "session_id") w' = (Normal sid, w')) ->
  startSession_resume (Resolved r) w =
  (Normal tt,
   {| sessionId := sid; messages := []; input := input w; loading := false;
      console := console w; network := network w |}).
Proof.
  intros Hp Hg.
  unfold startSession_resume, try_catch_finally, bind, json. simpl.
  rewrite Hp. simpl. rewrite Hg. reflexivity.
Qed.

Lemma startSession_resume_failure o w :
  StartFailure o ->
  exists e,
    startSession_resume o w =
    (Normal tt,
     {| sessionId := sessionId w; messages := messages w; input := input w;
        loading := false;
        console := console w ++ [LogError (lit "Error starting session:") e];
        network := network w |}).
Proof.
  intros F. destruct F as [| r H | r H]; eexists;
    unfold startSession_resume, try_catch_finally, bind, json; simpl;
    try rewrite H; reflexivity.
Qed.

(** C4. A start whose call fails with a transport error (the promise of
    [fetch] rejects) or a decoding error (the payload is not JSON, or is
    [null]) leaves the session identifier and the transcript as they were,
    writes one entry to the console, and shows nothing to the user (the
    transcript and the input are untouched). *)
Theorem start_failure_silent w o :
  StartFailure o ->
  let w' := startSession_run o w in
  sessionId w' = sessionId w
  /\ messages w' = messages w
  /\ input w' = input w
  /\ (exists e, console w'
                = console w ++ [LogError (lit "Error starting session:") e])
  /\ loading w' = false.
Proof.
  intros F w'. unfold w', startSession_run. rewrite startSession_invoke_eq.
  destruct (startSession_resume_failure o
              (snd (startSession_invoke w)) F) as [e He].
  rewrite startSession_invoke_eq in He. cbn [snd] in He.
  unfold exec. rewrite He. cbn.
  repeat split. now exists e.
Qed.

Lemma start_failure_silent_witness :
  StartFailure (Resolved server_error)
  /\ sessionId (startSession_run (Resolved server_error)
                  (session "s1" "" [said user "a"]))
     = VStr (lit "s1")
  /\ messages (startSession_run (Resolved server_error)
                 (session "s1" "" [said user "a"]))
     = [said user "a"].
Proof.
  pose proof (start_malformed server_error eq_refl) as F.
  split; [exact F |].
  destruct (start_failure_silent (session "s1" "" [said user "a"])
              (Resolved server_error) F) as (H1 & H2 & _).
  split; [exact H1 | exact H2].
Defined.

(** C6. A start whose call resolves with a 2xx status and an object carrying
    [session_id] replaces the held identifier by that value and empties the
    transcript, whatever the transcript held before. *)
Theorem start_success_resets w r fields sid :
  ok r = true ->
  payload r = Some (VObj fields) ->
  lookup_field (lit "session_id") fields = Some sid ->
  let w' := startSession_run (Resolved r) w in
  sessionId w' = sid
  /\ messages w' = []
  /\ console w' = console w
  /\ loading w' = false.
Proof.
  intros _ Hp Hf w'. unfold w', startSession_run.
  rewrite startSession_invoke_eq. unfold exec.
  rewrite (startSession_resume_decoded r (VObj fields) sid _ Hp
             (fun w0 => get_prop_field fields _ _ w0 Hf)).
  cbn. repeat split.
Qed.

Lemma start_success_resets_witness :
  ok (reply_with 200 [(lit "session_id", VStr (lit "s2"))]) = true
  /\ sessionId (startSession_run
                  (Resolved (reply_with 200 [(lit "session_id", VStr (lit "s2"))]))
                  (session "s1" "" [said user "a"; said assistant "b"]))
     = VStr (lit "s2")
  /\ messages (startSession_run
                 (Resolved (reply_with 200 [(lit "session_id", VStr (lit "s2"))]))
                 (session "s1" "" [said user "a"; said assistant "b"]))
     = [].
Proof.
  split; [reflexivity |].
  destruct (start_success_resets
              (session "s1" "" [said user "a"; said assistant "b"])
              (reply_with 200 [(lit "session_id", VStr (lit "s2"))])
              [(lit "session_id", VStr (lit "s2"))] (VStr (lit "s2"))
              eq_refl eq_refl eq_refl) as (H1 & H2 & _).
  split; [exact H1 | exact H2].
Defined.

(** [startSession] treats two responses with the same payload alike,
    whatever their status codes. *)
Lemma startSession_ignores_status st st' p w :
  startSession_resume (Resolved {| status := st; payload := p |}) w
  = startSession_resume (Resolved {| status := st'; payload := p |}) w.
Proof. reflexivity. Qed.

(** C3, on [sendMessage]: a status outside 200..299 takes the failure path. *)
Lemma send_non2xx_is_failure r :
  (status r < 200 \/ 299 < status r) -> ExchangeFailure (Resolved r).
Proof.
  intros H. apply fail_status. unfold ok.
  destruct (Z.leb_spec 200 (status r)); [| reflexivity].
  destruct (Z.leb_spec (status r) 299); [lia | reflexivity].
Qed.

(** C3, on [startSession]: the code has no [res.ok] test.  An HTTP 500 that
    carries a JSON error object is decoded like a success: the held
    identifier is overwritten (with [undefined], the object has no
    [session_id]) and the transcript is emptied. *)
Theorem start_non2xx_overwrites :
  let w := session "s1" "" [said user "a"; said assistant "b"] in
  let r := reply_with 500 [(lit "error", VStr (lit "boom"))] in
  ok r = false
  /\ sessionId (startSession_run (Resolved r) w) = VUndefined
  /\ messages (startSession_run (Resolved r) w) = []
  /\ console (startSession_run (Resolved r) w) = [].
Proof. repeat split. Qed.

(** ** Frame facts *)

(** Settlement of a send touches the transcript, the console and the flag
    only, and always leaves the flag cleared. *)
Lemma sendMessage_resume_frame o w :
  let w' := exec (sendMessage_resume o) w in
  sessionId w' = sessionId w /\ input w' = input w
  /\ network w' = network w /\ loading w' = false.
Proof.
  unfold exec, sendMessage_resume, try_catch_finally, bind, settled, json,
    get_prop.
  destruct o as [| r]; simpl; [repeat split |].
  destruct (ok r); simpl; [| repeat split].
  destruct (payload r) as [data |]; simpl; [| repeat split].
  destruct data as [| | b | x | s | items | fields]; simpl;
    try (repeat split; fail).
  destruct (lookup_field (lit "response") fields) as [v |]; simpl;
    [destruct (truthy v); simpl |]; repeat split.
Qed.

Lemma startSession_resume_frame o w :
  let w' := exec (startSession_resume o) w in
  input w' = input w /\ network w' = network w /\ loading w' = false.
Proof.
  unfold exec, startSession_resume, try_catch_finally, bind, settled, json,
    get_prop.
  destruct o as [| r]; simpl; [repeat split |].
  destruct (payload r) as [data |]; simpl; [| repeat split].
  destruct data as [| | b | x | s | items | fields]; simpl;
    try (repeat split; fail).
  destruct (lookup_field (lit "session_id") fields) as [v |]; simpl;
    repeat split.
Qed.

Lemma sendMessage_invoke_sessionId w :
  sessionId (exec sendMessage_invoke w) = sessionId w.
Proof.
  unfold exec. destruct (can_send w) eqn:Hc.
  - now rewrite (sendMessage_invoke_ok w Hc).
  - now rewrite (sendMessage_invoke_skip w Hc).
Qed.

Lemma call_send_world u : world (call HSend u) = exec sendMessage_invoke (world u).
Proof.
  unfold call, exec, invoke_part.
  destruct (sendMessage_invoke (world u)) as [[[r |] | e] w']; reflexivity.
Qed.

(** C10. [sendMessage] never writes the session identifier: not at
    invocation (whether it returns at the guard or suspends on [fetch]), not
    at settlement (whatever the outcome), hence not across a whole exchange.
    Of all events of the form, only the settlement of a [startSession] call
    can change it. *)
Theorem sendMessage_keeps_sessionId w o u e :
  sessionId (exec sendMessage_invoke w) = sessionId w
  /\ sessionId (exec (sendMessage_resume o) w) = sessionId w
  /\ sessionId (sendMessage_run o w) = sessionId w
  /\ (settles_start u e = true
      \/ sessionId (world (step u e)) = sessionId (world u)).
Proof.
  split; [apply sendMessage_invoke_sessionId |].
  split; [apply sendMessage_resume_frame |].
  split.
  - unfold sendMessage_run.
    pose proof (sendMessage_invoke_sessionId w) as Hi. unfold exec in Hi.
    destruct (sendMessage_invoke w) as [[[r |] | x] w1]; cbn [snd] in Hi;
      try exact Hi.
    rewrite <- Hi. apply sendMessage_resume_frame.
  - destruct e as [| s | | i o']; simpl.
    + right. reflexivity.
    + right. reflexivity.
    + right. rewrite call_send_world. apply sendMessage_invoke_sessionId.
    + destruct (nth_error (pending u) i) as [[|] |]; simpl.
      * left. reflexivity.
      * right. apply sendMessage_resume_frame.
      * right. reflexivity.
Qed.

(** ** The in-flight flag *)

Lemma ui_inv_initial : ui_inv ui_initial.
Proof. reflexivity. Qed.

Lemma ui_inv_flag u :
  ui_inv u -> (loading (world u) = true <-> pending u <> []).
Proof.
  unfold ui_inv. destruct (pending u) as [| [|] [|]]; intros H; split;
    intros H'; try congruence; try tauto; try discriminate.
Qed.

Lemma ui_inv_step u e :
  ui_inv u -> enabled u e = true -> ui_inv (step u e).
Proof.
  intros I En.
  assert (Idle : loading (world u) = false -> pending u = []).
  { intros L. destruct (pending u) eqn:P; [reflexivity |].
    apply ui_inv_flag in I. rewrite L, P in I.
    destruct I as [_ I]. discriminate I. discriminate. }
  destruct e as [| s | | i o]; simpl in En.
  - apply negb_true_iff in En. specialize (Idle En).
    unfold ui_inv, step, call. simpl. rewrite Idle. reflexivity.
  - apply andb_true_iff in En. destruct En as [_ En].
    apply negb_true_iff in En. specialize (Idle En).
    unfold ui_inv, step. simpl. rewrite Idle. exact En.
  - apply andb_true_iff in En. destruct En as [_ En].
    apply negb_true_iff in En. specialize (Idle En).
    unfold ui_inv, step, call, invoke_part.
    destruct (can_send (world u)) eqn:Hc.
    + rewrite (sendMessage_invoke_ok _ Hc). simpl. rewrite Idle. simpl.
      split; reflexivity.
    + rewrite (sendMessage_invoke_skip _ Hc). simpl. rewrite Idle. exact En.
  - apply Nat.ltb_lt in En.
    unfold ui_inv in I. unfold ui_inv, step.
    destruct (pending u) as [| h [| h' rest]] eqn:P; simpl in En.
    + lia.
    + destruct i as [| i]; [| lia]. simpl.
      destruct h; simpl.
      * apply startSession_resume_frame.
      * apply sendMessage_resume_frame.
    + destruct h, h'; contradiction.
Qed.

Lemma ui_inv_run evs : forall u u',
  ui_inv u -> run_events evs u = Some u' -> ui_inv u'.
Proof.
  induction evs as [| e evs IH]; intros u u' I R; simpl in R.
  - now inversion R; subst.
  - destruct (enabled u e) eqn:En; [| discriminate].
    exact (IH _ _ (ui_inv_step u e I En) R).
Qed.

(** C9, as stated, fails: [startSession] raises the flag as well.  After the
    first click on Start New Chat the flag is up and no send was ever made. *)
Lemma flag_up_without_send :
  run_events [ClickStart] ui_initial = Some (step ui_initial ClickStart)
  /\ ~ flag_marks_send (step ui_initial ClickStart).
Proof.
  split; [reflexivity |].
  intros [H _]. specialize (H eq_refl). simpl in H.
  destruct H as [H | H]; [discriminate H | exact H].
Qed.

(** C9, amended. In every state the form can reach, the flag is up exactly
    while a call (a send with a valid precondition, or a start) is
    outstanding, and at most one is; the settlement of the outstanding call
    clears the flag whatever its outcome; while a send is outstanding, a
    further invocation of [sendMessage] returns at the guard (the input is
    empty) and changes nothing. *)
Theorem flag_marks_outstanding_call evs u :
  run_events evs ui_initial = Some u ->
  (loading (world u) = true <-> pending u <> [])
  /\ (List.length (pending u) <= 1)%nat
  /\ (forall i o, enabled u (Settle i o) = true ->
        loading (world (step u (Settle i o))) = false
        /\ pending (step u (Settle i o)) = [])
  /\ (forall w o, loading (exec (sendMessage_resume o) w) = false)
  /\ (In HSend (pending u) ->
        loading (world u) = true
        /\ sendMessage_invoke (world u) = (Normal None, world u)).
Proof.
  intros R.
  pose proof (ui_inv_run evs _ _ ui_inv_initial R) as I.
  split; [exact (ui_inv_flag u I) |].
  split; [| split; [| split]].
  - unfold ui_inv in I. destruct (pending u) as [| h [| h' rest]]; simpl;
      [lia | lia | destruct h, h'; contradiction].
  - intros i o En.
    pose proof (ui_inv_step u (Settle i o) I En) as I'.
    simpl in En. apply Nat.ltb_lt in En.
    unfold ui_inv in I.
    destruct (pending u) as [| h [| h' rest]] eqn:P; simpl in En;
      [lia | | destruct h, h'; contradiction].
    destruct i as [| i]; [| lia].
    unfold ui_inv in I'. simpl in *. rewrite P in *. simpl in *.
    split; [exact I' | reflexivity].
  - intros w o. apply sendMessage_resume_frame.
  - intros Hin. unfold ui_inv in I.
    destruct (pending u) as [| h [| h' rest]]; simpl in Hin;
      [contradiction | | destruct h, h'; contradiction].
    destruct h; [destruct Hin as [Hin | []]; discriminate Hin |].
    destruct I as [L E]. split; [exact L |].
    apply sendMessage_invoke_skip. unfold can_send. now rewrite E.
Qed.

Lemma flag_marks_outstanding_call_witness :
  run_events (exchange_events "s1" "deploy app") ui_initial
  = Some (after (exchange_events "s1" "deploy app"))
  /\ pending (after (exchange_events "s1" "deploy app")) = [HSend]
  /\ loading (world (after (exchange_events "s1" "deploy app"))) = true
  /\ sendMessage_invoke (world (after (exchange_events "s1" "deploy app")))
     = (Normal None, world (after (exchange_events "s1" "deploy app"))).
Proof.
  split; [reflexivity |]. split; [reflexivity |].
  exact (proj2 (proj2 (proj2 (proj2
           (flag_marks_outstanding_call (exchange_events "s1" "deploy app")
              (after (exchange_events "s1" "deploy app")) eq_refl))))
           (or_introl eq_refl)).
Defined.

(** ** End-to-end scenarios *)

Example scenario_reply :
  messages (world (after (exchange_events "s1" "deploy app"
                            ++ [Settle 0 (Resolved (reply_with 200 deploying))])))
  = [said user "deploy app"; said assistant "Deploying..."].
Proof. reflexivity. Qed.

Example scenario_failure :
  messages (world (after (exchange_events "s1" "fail me"
                            ++ [Settle 0 (Resolved server_error)])))
  = [said user "fail me";
     said assistant "Sorry, I encountered an error. Please try again."].
Proof. reflexivity. Qed.

(** While the flag is up, the form delivers neither a click nor a submit. *)
Example gated_while_in_flight :
  run_events (exchange_events "s1" "deploy app" ++ [Submit]) ui_initial = None
  /\ run_events (exchange_events "s1" "deploy app" ++ [ClickStart]) ui_initial
     = None.
Proof. split; reflexivity. Qed.

(** ** Rendering a message: [renderContent] *)

Lemma js_split_cons sep s : exists line lines, js_split sep s = line :: lines.
Proof.
  induction s as [| c s IH]; simpl.
  - now exists [], [].
  - destruct (c =? sep)%N.
    + now exists [], (js_split sep s).
    + destruct IH as (line & lines & E). rewrite E. now exists (c :: line), lines.
Qed.

Lemma js_join_cons sep l l' ls :
  js_join sep (l :: l' :: ls) = l ++ sep :: js_join sep (l' :: ls).
Proof. reflexivity. Qed.

Lemma js_join_split sep s : js_join sep (js_split sep s) = s.
Proof.
  induction s as [| c s IH]; simpl; [reflexivity |].
  destruct (js_split_cons sep s) as (line & lines & E).
  rewrite E in *.
  destruct (N.eqb_spec c sep) as [-> | _].
  - rewrite js_join_cons, IH. reflexivity.
  - destruct lines as [| l' ls].
    + simpl in *. now rewrite IH.
    + rewrite js_join_cons in *. rewrite <- IH. reflexivity.
Qed.

Lemma js_split_length sep s :
  List.length (js_split sep s) = S (count_occ N.eq_dec s sep).
Proof.
  induction s as [| c s IH]; simpl; [reflexivity |].
  destruct (N.eqb_spec c sep) as [-> | Hne].
  - simpl. rewrite IH. now destruct (N.eq_dec sep sep).
  - destruct (js_split_cons sep s) as (line & lines & E).
    rewrite E in *. simpl in *. rewrite IH.
    now destruct (N.eq_dec c sep).
Qed.

Lemma mapi_from_length {A B} (f : A -> nat -> B) l : forall i,
  List.length (mapi_from i f l) = List.length l.
Proof. induction l; intros i; simpl; [reflexivity | now rewrite IHl]. Qed.

Lemma line_fragment_text n line i :
  text_of (line_fragment n line i)
  = line ++ if (i <? n - 1)%nat then [newline] else [].
Proof.
  unfold line_fragment. cbn [text_of flat_map].
  destruct (i <? n - 1)%nat; cbn; now rewrite ?app_nil_r.
Qed.

Lemma line_fragment_breaks n line i :
  List.length (filter is_br (elements (line_fragment n line i)))
  = if (i <? n - 1)%nat then 1%nat else 0%nat.
Proof.
  unfold line_fragment. cbn [elements flat_map].
  destruct (i <? n - 1)%nat; reflexivity.
Qed.

Lemma lines_text arr : forall k n,
  n = (k + List.length arr)%nat ->
  flat_map text_of (mapi_from k (line_fragment n) arr) = js_join newline arr.
Proof.
  induction arr as [| line rest IH]; intros k n Hn; [reflexivity |].
  cbn [mapi_from flat_map]. rewrite line_fragment_text.
  rewrite (IH (S k) n) by (simpl in Hn; lia).
  destruct rest as [| line' rest'].
  - simpl in Hn. assert (E : (k <? n - 1)%nat = false)
      by (apply Nat.ltb_ge; lia).
    rewrite E. cbn. now rewrite !app_nil_r.
  - simpl in Hn. assert (E : (k <? n - 1)%nat = true)
      by (apply Nat.ltb_lt; lia).
    rewrite E, js_join_cons, <- app_assoc. reflexivity.
Qed.

Lemma lines_breaks arr : forall k n,
  n = (k + List.length arr)%nat ->
  List.length (filter is_br (flat_map elements (mapi_from k (line_fragment n) arr)))
  = (List.length arr - 1)%nat.
Proof.
  induction arr as [| line rest IH]; intros k n Hn; [reflexivity |].
  cbn [mapi_from flat_map]. rewrite filter_app, length_app.
  rewrite line_fragment_breaks.
  rewrite (IH (S k) n) by (simpl in Hn; lia).
  destruct rest as [| line' rest'].
  - simpl in Hn. assert (E : (k <? n - 1)%nat = false)
      by (apply Nat.ltb_ge; lia).
    rewrite E. reflexivity.
  - simpl in Hn. assert (E : (k <? n - 1)%nat = true)
      by (apply Nat.ltb_lt; lia).
    rewrite E. simpl. lia.
Qed.

Lemma renderContent_string s :
  renderContent (CVal (VStr s))
  = mapi_from 0 (line_fragment (List.length (js_split newline s)))
      (js_split newline s).
Proof. reflexivity. Qed.

(** X1. [renderContent] loses nothing of a string: reading the rendered
    fragments back, with each [<br />] as a line feed, gives the string
    again; there is one fragment per line and one [<br />] per line feed. *)
Theorem renderContent_roundtrip s :
  flat_map text_of (renderContent (CVal (VStr s))) = s
  /\ List.length (renderContent (CVal (VStr s)))
     = S (count_occ N.eq_dec s newline)
  /\ List.length
       (filter is_br (flat_map elements (renderContent (CVal (VStr s)))))
     = count_occ N.eq_dec s newline.
Proof.
  rewrite renderContent_string. split; [| split].
  - rewrite lines_text by reflexivity. apply js_join_split.
  - rewrite mapi_from_length. apply js_split_length.
  - rewrite lines_breaks by reflexivity. rewrite js_split_length. lia.
Qed.

Example renderContent_two_lines :
  renderContent (CVal (VStr (lit "ab")  )) = [Frag (Some 0%nat) [Txt (lit "ab")]]
  /\ renderContent (CVal (VStr [97; 10; 98]%N))
     = [Frag (Some 0%nat) [Txt [97%N]; br]; Frag (Some 1%nat) [Txt [98%N]]]
  /\ renderContent (CVal (VStr [])) = [Frag (Some 0%nat) [Txt []]].
Proof. repeat split. Qed.

(** ** More on [sendMessage] *)

Lemma get_prop_defined data k w :
  data <> VNull -> data <> VUndefined ->
  get_prop data k w = (Normal (prop_or_undefined data k), w).
Proof.
  intros Hn Hu. destruct data; try congruence; try reflexivity.
  simpl. now destruct (lookup_field k fields).
Qed.

(** X2. What a decoded reply appends.  After a valid send, a 2xx response
    whose payload is any value but [null] appends the value of its
    [response] property as an assistant message when that value is truthy
    (whatever its type), and appends nothing when it is falsy (a missing
    property, the empty string, zero, [false], [null]); neither case logs
    anything. *)
Theorem send_decoded_reply w r data :
  can_send w = true ->
  ok r = true ->
  payload r = Some data ->
  data <> VNull -> data <> VUndefined ->
  let reply := prop_or_undefined data (lit "response") in
  let w2 := sendMessage_run (Resolved r) w in
  messages w2
  = messages w ++ [{| role := user; content := VStr (input w) |}]
      ++ (if truthy reply then [{| role := assistant; content := reply |}]
          else [])
  /\ console w2 = console w
  /\ loading w2 = false.
Proof.
  intros Hc Hok Hp Hn Hu reply w2.
  unfold w2, sendMessage_run, exec.
  rewrite (sendMessage_invoke_ok w Hc).
  rewrite (sendMessage_resume_decoded r data reply _ Hok Hp
             (fun w' => get_prop_defined data _ w' Hn Hu)).
  cbn [snd]. destruct (truthy reply); cbn.
  - rewrite <- app_assoc. repeat split.
  - repeat split.
Qed.

Lemma send_decoded_reply_witness :
  can_send (session "s1" "count" []) = true
  /\ messages (sendMessage_run
                 (Resolved (reply_with 200
                    [(lit "response", VNum (S754_finite false 1 1))]))
                 (session "s1" "count" []))
     = [said user "count";
        {| role := assistant; content := VNum (S754_finite false 1 1) |}]
  /\ messages (sendMessage_run
                 (Resolved (reply_with 200 [(lit "response", VStr [])]))
                 (session "s1" "count" []))
     = [said user "count"].
Proof.
  split; [reflexivity |]. split.
  - exact (proj1 (send_decoded_reply (session "s1" "count" [])
                    (reply_with 200
                       [(lit "response", VNum (S754_finite false 1 1))])
                    _ eq_refl eq_refl eq_refl
                    ltac:(discriminate) ltac:(discriminate))).
  - exact (proj1 (send_decoded_reply (session "s1" "count" [])
                    (reply_with 200 [(lit "response", VStr [])])
                    _ eq_refl eq_refl eq_refl
                    ltac:(discriminate) ltac:(discriminate))).
Defined.

Lemma sendMessage_resume_normal o w : fst (sendMessage_resume o w) = Normal tt.
Proof.
  unfold sendMessage_resume, try_catch_finally, bind, settled, json, get_prop.
  destruct o as [| r]; simpl; [reflexivity |].
  destruct (ok r); simpl; [| reflexivity].
  destruct (payload r) as [data |]; simpl; [| reflexivity].
  destruct data as [| | b | x | s | items | fields]; simpl; try reflexivity.
  destruct (lookup_field (lit "response") fields) as [v |]; simpl;
    [destruct (truthy v) |]; reflexivity.
Qed.

Lemma startSession_resume_normal o w : fst (startSession_resume o w) = Normal tt.
Proof.
  unfold startSession_resume, try_catch_finally, bind, settled, json, get_prop.
  destruct o as [| r]; simpl; [reflexivity |].
  destruct (payload r) as [data |]; simpl; [| reflexivity].
  destruct data as [| | b | x | s | items | fields]; simpl; try reflexivity.
  destruct (lookup_field (lit "session_id") fields) as [v |]; reflexivity.
Qed.


(** X3. Settlement is quiet.  Whatever the outcome, the part of either
    handler that runs at settlement completes normally (nothing escapes the
    [catch]), hands nothing to [fetch] (no retry), leaves the input field
    alone and ends with the flag down. *)
Theorem settlement_is_quiet h o w :
  fst (resume_part h o w) = Normal tt
  /\ network (exec (resume_part h o) w) = network w
  /\ input (exec (resume_part h o) w) = input w
  /\ loading (exec (resume_part h o) w) = false.
Proof.
  destruct h; simpl.
  - split; [apply startSession_resume_normal |].
    pose proof (startSession_resume_frame o w) as (Hi & Hn & Hl).
    now repeat split.
  - split; [apply sendMessage_resume_normal |].
    pose proof (sendMessage_resume_frame o w) as (_ & Hi & Hn & Hl).
    now repeat split.
Qed.

Lemma sendMessage_resume_appends o w :
  exists replies,
    messages (exec (sendMessage_resume o) w) = messages w ++ replies
    /\ (List.length replies <= 1)%nat
    /\ forallb is_assistant replies = true
    /\ forallb has_content replies = true.
Proof.
  unfold exec, sendMessage_resume, try_catch_finally, bind, settled, json,
    get_prop.
  assert (F : exists replies,
             messages w ++ [fallback] = messages w ++ replies
             /\ (List.length replies <= 1)%nat
             /\ forallb is_assistant replies = true
             /\ forallb has_content replies = true)
    by (exists [fallback]; repeat split; simpl; lia).
  assert (Z : exists replies,
             messages w = messages w ++ replies
             /\ (List.length replies <= 1)%nat
             /\ forallb is_assistant replies = true
             /\ forallb has_content replies = true)
    by (exists []; rewrite app_nil_r; repeat split; simpl; lia).
  destruct o as [| r]; simpl; [exact F |].
  destruct (ok r); simpl; [| exact F].
  destruct (payload r) as [data |]; simpl; [| exact F].
  destruct data as [| | b | x | s | items | fields]; simpl;
    try exact F; try exact Z.
  destruct (lookup_field (lit "response") fields) as [v |]; simpl;
    [| exact Z].
  destruct (truthy v) eqn:T; simpl; [| exact Z].
  exists [{| role := assistant; content := v |}].
  repeat split; simpl; try lia. unfold has_content. simpl. now rewrite T.
Qed.

(** X4. [sendMessage] only ever appends.  Across a whole exchange, for every
    state and every outcome, the transcript it leaves is the old one followed
    by at most one user message and then at most one assistant message; an
    assistant message is appended only together with the user message. *)
Theorem sendMessage_append_only o w :
  exists sent replies,
    messages (sendMessage_run o w) = messages w ++ sent ++ replies
    /\ (List.length sent <= 1)%nat /\ (List.length replies <= 1)%nat
    /\ forallb is_user sent = true
    /\ forallb is_assistant replies = true
    /\ (sent = [] -> replies = []).
Proof.
  unfold sendMessage_run. destruct (can_send w) eqn:Hc.
  - rewrite (sendMessage_invoke_ok w Hc).
    destruct (sendMessage_resume_appends o
                {| sessionId := sessionId w;
                   messages := messages w
                     ++ [{| role := user; content := VStr (input w) |}];
                   input := []; loading := true; console := console w;
                   network := network w
                     ++ [chat_request (sessionId w) (VStr (input w))] |})
      as (replies & E & L & A & _).
    exists [{| role := user; content := VStr (input w) |}], replies.
    rewrite E. cbn [messages]. rewrite <- app_assoc.
    repeat split; simpl; try lia; try assumption. discriminate.
  - rewrite (sendMessage_invoke_skip w Hc).
    exists [], []. rewrite !app_nil_r. repeat split; simpl; lia.
Qed.

(** ** The guard and [trim] *)

Lemma trimStart_blank s : trimStart s = [] <-> forallb is_space s = true.
Proof.
  induction s as [| c s IH]; simpl; [tauto |].
  destruct (is_space c); simpl; [exact IH |].
  split; discriminate.
Qed.

Lemma trimStart_head s c t : trimStart s = c :: t -> is_space c = false.
Proof.
  induction s as [| d s IH]; simpl; [discriminate |].
  destruct (is_space d) eqn:E; [exact IH |].
  intros H. inversion H; subst. exact E.
Qed.

Lemma forallb_rev {A} (p : A -> bool) l : forallb p (rev l) = forallb p l.
Proof.
  induction l as [| x l IH]; simpl; [reflexivity |].
  rewrite forallb_app, IH. simpl. rewrite andb_true_r. apply andb_comm.
Qed.

Lemma trim_blank_iff s : trim s = [] <-> forallb is_space s = true.
Proof.
  unfold trim, trimEnd. split.
  - intros H.
    assert (H' : trimStart (rev (trimStart s)) = []).
    { destruct (trimStart (rev (trimStart s))) as [| c0 t0]; [reflexivity |].
      simpl in H. apply app_eq_nil in H. destruct H as [_ H]. discriminate H. }
    apply trimStart_blank in H'. rewrite forallb_rev in H'.
    destruct (trimStart s) as [| c t] eqn:E.
    + now apply trimStart_blank.
    + apply trimStart_head in E. simpl in H'. rewrite E in H'. discriminate.
  - intros H. apply trimStart_blank in H. rewrite H. reflexivity.
Qed.

Lemma truthy_str s : truthy (VStr s) = true <-> s <> [].
Proof. destruct s; simpl; split; congruence. Qed.

(** X5. The guard of [sendMessage] lets a send through exactly when the
    held session identifier is truthy and the input has at least one code
    unit that is not white space; an input made of white space only (or
    empty) is always a skip. *)
Theorem guard_passes_iff w :
  can_send w = true
  <-> existsb (fun c => negb (is_space c)) (input w) = true
      /\ truthy (sessionId w) = true.
Proof.
  unfold can_send. rewrite andb_true_iff, truthy_str.
  assert (B : trim (input w) <> []
              <-> existsb (fun c => negb (is_space c)) (input w) = true).
  { rewrite trim_blank_iff.
    induction (input w) as [| c s IH]; simpl.
    - split; [congruence | discriminate].
    - destruct (is_space c); simpl; [exact IH |].
      split; [reflexivity | discriminate]. }
  tauto.
Qed.

Lemma guard_passes_iff_witness :
  can_send (session "s1" " go " []) = true
  /\ can_send (session "s1" "  " []) = false.
Proof.
  split.
  - exact (proj2 (guard_passes_iff (session "s1" " go " []))
             (conj eq_refl eq_refl)).
  - destruct (can_send (session "s1" "  " [])) eqn:E; [| reflexivity].
    destruct (proj1 (guard_passes_iff (session "s1" "  " [])) E) as [H _].
    discriminate H.
Defined.

Lemma guard_can_send_intro w :
  existsb (fun c => negb (is_space c)) (input w) = true ->
  truthy (sessionId w) = true ->
  can_send w = true.
Proof.
  intros Hi Hs. unfold can_send. rewrite Hs, andb_true_r.
  apply truthy_str. intros E. apply trim_blank_iff in E.
  induction (input w) as [| c s IH]; simpl in *; [discriminate |].
  destruct (is_space c); simpl in *; [now apply IH | discriminate].
Qed.

(** ** What the transcript can hold *)

Lemma trim_nil : trim [] = [].
Proof. reflexivity. Qed.

Lemma can_send_input w : can_send w = true -> input w <> [].
Proof.
  unfold can_send. rewrite andb_true_iff, truthy_str.
  intros [H _] E. rewrite E in H. now apply H.
Qed.

Lemma sendMessage_invoke_content w :
  forallb has_content (messages w) = true ->
  forallb has_content (messages (exec sendMessage_invoke w)) = true.
Proof.
  intros H. unfold exec. destruct (can_send w) eqn:Hc.
  - rewrite (sendMessage_invoke_ok w Hc). cbn [snd messages].
    rewrite forallb_app, H. simpl. unfold has_content. simpl.
    pose proof (can_send_input w Hc). now destruct (input w).
  - now rewrite (sendMessage_invoke_skip w Hc).
Qed.

Lemma startSession_resume_messages o w :
  messages (exec (startSession_resume o) w) = messages w
  \/ messages (exec (startSession_resume o) w) = [].
Proof.
  unfold exec, startSession_resume, try_catch_finally, bind, settled, json,
    get_prop.
  destruct o as [| r]; simpl; [now left |].
  destruct (payload r) as [data |]; simpl; [| now left].
  destruct data as [| | b | x | s | items | fields]; simpl;
    try (now left); try (now right).
  destruct (lookup_field (lit "session_id") fields); simpl; now right.
Qed.

(** X6. No empty message enters the transcript.  Every event of the form,
    enabled or not, keeps this: each message of the transcript has a truthy
    content (a user message is a string with a visible character, an
    assistant message is a truthy reply or the fallback text). *)
Theorem transcript_has_content u e :
  forallb has_content (messages (world u)) = true ->
  forallb has_content (messages (world (step u e))) = true.
Proof.
  intros H. destruct e as [| s | | i o]; simpl.
  - exact H.
  - exact H.
  - rewrite call_send_world. now apply sendMessage_invoke_content.
  - destruct (nth_error (pending u) i) as [[|] |]; simpl; [| | exact H].
    + destruct (startSession_resume_messages o (world u)) as [E | E];
        rewrite E; [exact H | reflexivity].
    + destruct (sendMessage_resume_appends o (world u))
        as (replies & E & _ & _ & C).
      rewrite E, forallb_app, H, C. reflexivity.
Qed.

Lemma transcript_has_content_witness :
  forallb has_content
    (messages (world (step (after (exchange_events "s1" "hi"))
                           (Settle 0 (Resolved server_error))))) = true.
Proof.
  exact (transcript_has_content (after (exchange_events "s1" "hi"))
           (Settle 0 (Resolved server_error)) eq_refl).
Defined.

(** ** The conversation as the form can drive it *)

Lemma ui_inv_idle u : ui_inv u -> loading (world u) = false -> pending u = [].
Proof.
  intros I L. destruct (pending u) eqn:P; [reflexivity |].
  apply ui_inv_flag in I. rewrite L, P in I.
  destruct I as [_ I]. discriminate I. discriminate.
Qed.

Lemma step_moves u e :
  ui_inv u -> enabled u e = true -> Moves u e (step u e).
Proof.
  intros I En. destruct e as [| s | | i o]; simpl in En.
  - apply negb_true_iff in En.
    pose proof (ui_inv_idle u I En) as P.
    unfold step, call. simpl. rewrite P. now constructor.
  - apply andb_true_iff in En. destruct En as [_ En].
    apply negb_true_iff in En.
    pose proof (ui_inv_idle u I En) as P.
    unfold step. rewrite P. now constructor.
  - apply andb_true_iff in En. destruct En as [_ En].
    apply negb_true_iff in En.
    pose proof (ui_inv_idle u I En) as P.
    unfold step, call, invoke_part.
    destruct (can_send (world u)) eqn:Hc.
    + pose proof (move_send u P Hc) as Mv. unfold exec in Mv.
      rewrite (sendMessage_invoke_ok _ Hc) in *. rewrite P. exact Mv.
    + rewrite (sendMessage_invoke_skip _ Hc). rewrite P. now constructor.
  - apply Nat.ltb_lt in En. unfold ui_inv in I. unfold step.
    destruct (pending u) as [| h [| h' rest]] eqn:P; simpl in En.
    + lia.
    + destruct i as [| i]; [| lia]. simpl. now constructor.
    + destruct h, h'; contradiction.
Qed.

Lemma replies_follow_snoc m l : forall p,
  replies_follow p (l ++ [m])
  = replies_follow p l && (is_user m || ends_with_user p l).
Proof.
  induction l as [| x l IH]; intros p; simpl.
  - unfold is_user. destruct (role m), p; reflexivity.
  - destruct (role x); rewrite IH; [reflexivity |].
    now rewrite andb_assoc.
Qed.

Lemma ends_with_user_snoc m l : forall p,
  ends_with_user p (l ++ [m]) = is_user m.
Proof.
  induction l as [| x l IH]; intros p; simpl; [reflexivity | apply IH].
Qed.

Lemma chat_inv_initial : chat_inv ui_initial.
Proof. repeat split. Qed.

Lemma chat_inv_step u e :
  chat_inv u -> enabled u e = true -> chat_inv (step u e).
Proof.
  intros (I & R & A) En.
  split; [exact (ui_inv_step u e I En) |].
  destruct (step_moves u e I En) as [P | s P | P Hc | P Hc | h o P].
  - split; [exact R | exact Logic.I].
  - split; [exact R | exact Logic.I].
  - split; [exact R | exact Logic.I].
  - unfold exec. rewrite (sendMessage_invoke_ok _ Hc). cbn [snd].
    split.
    + cbn [world messages]. rewrite replies_follow_snoc, R. reflexivity.
    + unfold awaiting_reply. cbn [pending world messages network sessionId].
      exists (messages (world u)), (input (world u)), (network (world u)).
      repeat split. unfold can_send in Hc.
      now apply andb_true_iff in Hc.
  - split; [| exact Logic.I]. cbn [world].
    destruct h; cbn [resume_part].
    + destruct (startSession_resume_messages o (world u)) as [E | E];
        rewrite E; [exact R | reflexivity].
    + unfold awaiting_reply in A. rewrite P in A.
      destruct A as (old & text & net & Em & _ & _).
      destruct (sendMessage_resume_appends o (world u))
        as (replies & E & L & _ & _).
      rewrite E. destruct replies as [| m [| m' rest]]; simpl in L.
      * now rewrite app_nil_r.
      * rewrite replies_follow_snoc, R, Em, ends_with_user_snoc.
        simpl. apply orb_true_r.
      * lia.
Qed.

Lemma chat_inv_run evs : forall u u',
  chat_inv u -> run_events evs u = Some u' -> chat_inv u'.
Proof.
  induction evs as [| e evs IH]; intros u u' I R; simpl in R.
  - now inversion R; subst.
  - destruct (enabled u e) eqn:En; [| discriminate].
    exact (IH _ _ (chat_inv_step u e I En) R).
Qed.

(** X7. Replies stay attached to their question.  In every state the form
    can reach from the initial one, each assistant message of the transcript
    (a reply or the fallback) comes directly after a user message: the
    transcript never starts with an assistant message and never has two in a
    row. *)
Theorem replies_follow_user_messages evs u :
  run_events evs ui_initial = Some u ->
  replies_follow false (messages (world u)) = true.
Proof.
  intros R. exact (proj1 (proj2 (chat_inv_run evs _ _ chat_inv_initial R))).
Qed.

Lemma replies_follow_user_messages_witness :
  run_events (exchange_events "s1" "fail me"
                ++ [Settle 0 (Resolved server_error)]) ui_initial
  = Some (after (exchange_events "s1" "fail me"
                   ++ [Settle 0 (Resolved server_error)]))
  /\ replies_follow false
       (messages (world (after (exchange_events "s1" "fail me"
                                  ++ [Settle 0 (Resolved server_error)]))))
     = true.
Proof.
  split; [reflexivity |].
  exact (replies_follow_user_messages
           (exchange_events "s1" "fail me" ++ [Settle 0 (Resolved server_error)])
           _ eq_refl).
Defined.

(** X8. No stale reply through the form.  In every reachable state in which
    a send is outstanding, the transcript ends with the user message of that
    send, the last request issued carries its text under the session
    identifier that is still held, and a reply X that arrives is appended
    directly after that message, leaving the identifier as it is. *)
Theorem reply_lands_after_its_message evs u :
  run_events evs ui_initial = Some u ->
  pending u = [HSend] ->
  exists old text net,
    messages (world u) = old ++ [{| role := user; content := VStr text |}]
    /\ network (world u)
       = net ++ [chat_request (sessionId (world u)) (VStr text)]
    /\ truthy (sessionId (world u)) = true
    /\ forall r fields X,
         ok r = true -> payload r = Some (VObj fields) ->
         lookup_field (lit "response") fields = Some (VStr X) -> X <> [] ->
         let u' := step u (Settle 0 (Resolved r)) in
         messages (world u')
         = old ++ [{| role := user; content := VStr text |};
                   {| role := assistant; content := VStr X |}]
         /\ sessionId (world u') = sessionId (world u)
         /\ pending u' = [].
Proof.
  intros R P.
  destruct (chat_inv_run evs _ _ chat_inv_initial R) as (_ & _ & A).
  unfold awaiting_reply in A. rewrite P in A.
  destruct A as (old & text & net & Em & En & Ht).
  exists old, text, net.
  split; [exact Em |]. split; [exact En |]. split; [exact Ht |].
  intros r fields X Hok Hp Hf HX u'.
  assert (E : u' = {| world := exec (sendMessage_resume (Resolved r)) (world u);
                      pending := [] |}).
  { unfold u', step. rewrite P. reflexivity. }
  rewrite E. cbn [world pending]. split; [| split; [| reflexivity]].
  - unfold exec.
    rewrite (sendMessage_resume_decoded r (VObj fields) (VStr X) _ Hok Hp
               (fun w' => get_prop_field fields _ _ w' Hf)).
    destruct X as [| c X']; [congruence |]. cbn.
    rewrite Em, <- app_assoc. reflexivity.
  - apply sendMessage_resume_frame.
Qed.

Lemma reply_lands_after_its_message_witness :
  run_events (exchange_events "s1" "deploy app") ui_initial
  = Some (after (exchange_events "s1" "deploy app"))
  /\ pending (after (exchange_events "s1" "deploy app")) = [HSend]
  /\ exists old text net,
       messages (world (after (exchange_events "s1" "deploy app")))
       = old ++ [{| role := user; content := VStr text |}]
       /\ network (world (after (exchange_events "s1" "deploy app")))
          = net ++ [chat_request (VStr (lit "s1")) (VStr text)].
Proof.
  split; [reflexivity |]. split; [reflexivity |].
  destruct (reply_lands_after_its_message
              (exchange_events "s1" "deploy app")
              (after (exchange_events "s1" "deploy app")) eq_refl eq_refl)
    as (old & text & net & Em & En & _).
  exists old, text, net. split; [exact Em | exact En].
Defined.

(** ** The rendered tree *)

Lemma renderContent_text s :
  flat_map text_of (renderContent (CVal (VStr s))) = s.
Proof.
  rewrite renderContent_string, lines_text by reflexivity.
  apply js_join_split.
Qed.

Lemma lines_plain arr : forall k n,
  forallb plain (flat_map elements (mapi_from k (line_fragment n) arr)) = true.
Proof.
  induction arr as [| line rest IH]; intros k n; [reflexivity |].
  cbn [mapi_from flat_map]. rewrite forallb_app, IH, andb_true_r.
  unfold line_fragment. cbn [elements flat_map].
  destruct (k <? n - 1)%nat; reflexivity.
Qed.

Lemma renderContent_plain v :
  forallb plain (flat_map elements (renderContent (CVal v))) = true.
Proof.
  destruct v; try reflexivity.
  rewrite renderContent_string. apply lines_plain.
Qed.

Lemma Message_plain key r v :
  forallb plain (elements (Message key r (CVal v))) = true.
Proof.
  unfold Message. destruct key, r; cbn [elements flat_map app];
    rewrite app_nil_r; cbn [forallb]; rewrite renderContent_plain;
    reflexivity.
Qed.

Lemma transcript_plain msgs : forall k,
  forallb plain
    (flat_map elements
       (mapi_from k (fun msg i => Message (Some i) (role msg) (CVal (content msg)))
          msgs)) = true.
Proof.
  induction msgs as [| m msgs IH]; intros k; [reflexivity |].
  cbn [mapi_from flat_map]. now rewrite forallb_app, Message_plain, IH.
Qed.

Lemma messages_container_plain w :
  forallb plain (elements (messages_container w)) = true.
Proof.
  unfold messages_container. cbn [elements].
  rewrite !flat_map_app. cbn [forallb]. rewrite !forallb_app.
  assert (T : forallb plain
                (flat_map elements
                   match messages w with
                   | [] =>
                       [El "div" "empty-state" []
                          [Icon "FiMessageSquare" "" (Some 48);
                           El "h3" "" [] [Txt (lit "How can I help you today?")];
                           El "p" "" []
                             [Txt (lit "Ask me anything about DevOps, CI/CD, cloud, or infrastructure.")]]]
                   | _ :: _ =>
                       mapi (fun msg i =>
                               Message (Some i) (role msg) (CVal (content msg)))
                            (messages w)
                   end) = true).
  { destruct (messages w) as [| m msgs] eqn:E; [reflexivity |].
    apply transcript_plain. }
  rewrite T. destruct (loading w); reflexivity.
Qed.

Lemma plain_not_live p l :
  (forall i, p (Key i) = false) -> p Ref = false ->
  forallb plain l = true ->
  existsb (fun e => existsb p (e_attrs e) && negb (is_disabled (e_attrs e))) l
  = false.
Proof.
  intros Hk Hr. induction l as [| e l IH]; simpl; [reflexivity |].
  intros H. apply andb_true_iff in H. destruct H as [He Hl].
  rewrite (IH Hl), orb_false_r.
  unfold plain in He. apply andb_true_iff in He. destruct He as [_ He].
  assert (E : existsb p (e_attrs e) = false).
  { induction (e_attrs e) as [| a attrs IHa]; simpl in *; [reflexivity |].
    apply andb_true_iff in He. destruct He as [Ha Hrest].
    rewrite (IHa Hrest), orb_false_r.
    destruct a; try discriminate; [apply Hk | exact Hr]. }
  now rewrite E.
Qed.


(** The elements of [App], the transcript part kept apart. *)
Lemma App_elements w :
  elements (App w)
  = if truthy (sessionId w)
    then [mkElem "div" "app-container" []; mkElem "header" "app-header" [];
          mkElem "h1" "" []; mkElem "p" "" [];
          mkElem "main" "chat-container" []]
         ++ elements (messages_container w) ++ elements (message_form w)
    else [mkElem "div" "app-container" []; mkElem "header" "app-header" [];
          mkElem "h1" "" []; mkElem "p" "" [];
          mkElem "main" "chat-container" []]
         ++ elements (welcome_screen w).
Proof.
  unfold App. destruct (truthy (sessionId w)); cbn [negb].
  - cbn [elements flat_map app]. now rewrite !app_nil_r.
  - cbn [elements flat_map app welcome_screen]. reflexivity.
Qed.

Lemma live_App p w :
  (forall i, p (Key i) = false) -> p Ref = false ->
  live p (App w)
  = if truthy (sessionId w) then live p (message_form w)
    else live p (welcome_screen w).
Proof.
  intros Hk Hr. unfold live. rewrite App_elements.
  destruct (truthy (sessionId w)).
  - rewrite !existsb_app.
    rewrite (plain_not_live p _ Hk Hr (messages_container_plain w)).
    reflexivity.
  - rewrite existsb_app. reflexivity.
Qed.



Lemma send_button_live w :
  live is_submit (App w) = can_send w && negb (loading w).
Proof.
  rewrite live_App by reflexivity.
  unfold can_send, live, message_form, welcome_screen, is_disabled.
  destruct (truthy (sessionId w)), (loading w),
    (truthy (VStr (trim (input w)))); reflexivity.
Qed.

(** X11. An enabled send button always sends.  When the page shows the send
    button enabled, the guard of [sendMessage] passes and nothing is in
    flight, so a click hands exactly one request to [fetch], carrying the
    held session identifier and the input, and the handler suspends on it. *)
Theorem enabled_send_button_sends w :
  live is_submit (App w) = true ->
  can_send w = true /\ loading w = false
  /\ exists w1,
       sendMessage_invoke w
       = (Normal (Some (chat_request (sessionId w) (VStr (input w)))), w1)
       /\ network w1
          = network w ++ [chat_request (sessionId w) (VStr (input w))]
       /\ loading w1 = true.
Proof.
  rewrite send_button_live, andb_true_iff, negb_true_iff.
  intros [Hc Hl]. split; [exact Hc |]. split; [exact Hl |].
  eexists. split; [exact (sendMessage_invoke_ok w Hc) |].
  split; reflexivity.
Qed.

Lemma enabled_send_button_sends_witness :
  live is_submit (App (session "s1" "deploy app" [])) = true
  /\ can_send (session "s1" "deploy app" []) = true.
Proof.
  split; [reflexivity |].
  exact (proj1 (enabled_send_button_sends (session "s1" "deploy app" [])
                  eq_refl)).
Defined.

Lemma bubbles_message_div cls attrs avatar_icon kids :
  String.prefix "message " cls = true ->
  bubbles (El "div" cls attrs
             [El "div" "message-avatar" [] [avatar_icon];
              El "div" "message-content" [] kids])
  = [(cls, text_of avatar_icon ++ flat_map text_of kids)].
Proof.
  intros H. cbn [bubbles]. rewrite H.
  cbn [flat_map text_of String.eqb Ascii.eqb Bool.eqb].
  now rewrite !app_nil_r.
Qed.

Lemma bubbles_Message key m :
  is_text m = true ->
  bubbles (Message key (role m) (CVal (content m))) = [bubble_of m].
Proof.
  unfold is_text, bubble_of, text_msg, Message.
  destruct (content m) as [| | | | s | |]; try discriminate. intros _.
  rewrite bubbles_message_div by (destruct (role m); reflexivity).
  rewrite renderContent_text. now destruct (role m).
Qed.

Lemma bubbles_transcript msgs : forall k,
  forallb is_text msgs = true ->
  flat_map bubbles
    (mapi_from k (fun msg i => Message (Some i) (role msg) (CVal (content msg)))
       msgs)
  = map bubble_of msgs.
Proof.
  induction msgs as [| m msgs IH]; intros k H; [reflexivity |].
  simpl in H. apply andb_true_iff in H. destruct H as [Hm Hrest].
  cbn [mapi_from flat_map map]. now rewrite bubbles_Message, IH.
Qed.

Lemma bubbles_other tag cls attrs kids :
  String.prefix "message " cls = false ->
  bubbles (El tag cls attrs kids) = flat_map bubbles kids.
Proof. intros H. cbn [bubbles]. now rewrite H. Qed.

Lemma bubbles_App w :
  bubbles (App w)
  = if truthy (sessionId w)
    then bubbles (messages_container w) ++ bubbles (message_form w)
    else bubbles (welcome_screen w).
Proof.
  unfold App. rewrite bubbles_other by reflexivity.
  destruct (truthy (sessionId w)); cbn [negb flat_map].
  - rewrite (bubbles_other "header"), (bubbles_other "main") by reflexivity.
    cbn [flat_map]. rewrite !app_nil_r. reflexivity.
  - rewrite (bubbles_other "header"), (bubbles_other "main") by reflexivity.
    cbn [flat_map]. rewrite !app_nil_r. reflexivity.
Qed.

Lemma bubbles_messages_container w :
  bubbles (messages_container w)
  = flat_map bubbles
      match messages w with
      | [] =>
          [El "div" "empty-state" []
             [Icon "FiMessageSquare" "" (Some 48);
              El "h3" "" [] [Txt (lit "How can I help you today?")];
              El "p" "" []
                [Txt (lit "Ask me anything about DevOps, CI/CD, cloud, or infrastructure.")]]]
      | _ :: _ =>
          mapi (fun msg i => Message (Some i) (role msg) (CVal (content msg)))
               (messages w)
      end
    ++ flat_map bubbles
         (if loading w then [Message None assistant (CElem LoadingSpinner)]
          else []).
Proof.
  unfold messages_container. rewrite bubbles_other by reflexivity.
  rewrite !flat_map_app.
  assert (R : flat_map bubbles [El "div" "" [Ref] []] = []) by reflexivity.
  now rewrite R, app_nil_r.
Qed.

(** X12. The chat view shows the transcript.  With a session held and a
    transcript of text messages, the message bubbles of the page are exactly
    the transcript entries, in order, each under the class of its role and
    with its full text (line feeds as [<br />]), followed by one empty
    assistant bubble (the spinner) while the flag is up. *)
Theorem transcript_is_shown w :
  truthy (sessionId w) = true ->
  forallb is_text (messages w) = true ->
  bubbles (App w)
  = map bubble_of (messages w)
    ++ (if loading w then [("message assistant"%string, [])] else []).
Proof.
  intros Hs Ht. rewrite bubbles_App, Hs, bubbles_messages_container.
  assert (F : bubbles (message_form w) = []) by reflexivity.
  rewrite F, app_nil_r. f_equal.
  - destruct (messages w) as [| m msgs] eqn:E; [reflexivity |].
    now apply bubbles_transcript.
  - destruct (loading w); reflexivity.
Qed.

Lemma transcript_is_shown_witness :
  truthy (sessionId (session "s1" ""
            [said user "deploy app"; said assistant "Deploying..."])) = true
  /\ bubbles (App (session "s1" ""
                     [said user "deploy app"; said assistant "Deploying..."]))
     = [("message user"%string, lit "deploy app");
        ("message assistant"%string, lit "Deploying...")].
Proof.
  split; [reflexivity |].
  exact (transcript_is_shown
           (session "s1" ""
              [said user "deploy app"; said assistant "Deploying..."])
           eq_refl eq_refl).
Defined.

(** ** Compositions *)

(** X13. A start response without a usable [session_id].  When the decoded
    payload is not [null] and its [session_id] is missing or falsy (the empty
    string, [null]), the start still empties the transcript, and the client
    is left without a session: the page is back on the welcome screen (no
    input to type in, Start enabled), and a send is a skip whatever text the
    input holds. *)
Theorem start_without_session_id w r data :
  payload r = Some data ->
  data <> VNull -> data <> VUndefined ->
  truthy (prop_or_undefined data (lit "session_id")) = false ->
  let w' := startSession_run (Resolved r) w in
  messages w' = []
  /\ sessionId w' = prop_or_undefined data (lit "session_id")
  /\ live is_OnChange (App w') = false
  /\ live calls_start (App w') = true
  /\ forall text o,
       sendMessage_run o (exec (setInput text) w') = exec (setInput text) w'.
Proof.
  intros Hp Hn Hu Hf w'.
  assert (E : w' = {| sessionId := prop_or_undefined data (lit "session_id");
                      messages := []; input := input w; loading := false;
                      console := console w;
                      network := network w ++ [start_request] |}).
  { unfold w', startSession_run. rewrite startSession_invoke_eq. unfold exec.
    now rewrite (startSession_resume_decoded r data _ _ Hp
                   (fun w0 => get_prop_defined data _ w0 Hn Hu)). }
  rewrite E. split; [reflexivity |]. split; [reflexivity |].
  split; [| split].
  - rewrite live_App by reflexivity. cbn [sessionId]. rewrite Hf. reflexivity.
  - rewrite live_App by reflexivity. cbn [sessionId]. rewrite Hf. reflexivity.
  - intros text o. unfold sendMessage_run.
    rewrite sendMessage_invoke_skip; [reflexivity |].
    unfold can_send, exec. cbn [setInput snd sessionId input].
    rewrite Hf. apply andb_false_r.
Qed.

Lemma start_without_session_id_witness :
  messages (startSession_run (Resolved (reply_with 200 []))
              (session "s1" "hello" [said user "a"])) = []
  /\ sessionId (startSession_run (Resolved (reply_with 200 []))
                  (session "s1" "hello" [said user "a"])) = VUndefined.
Proof.
  destruct (start_without_session_id (session "s1" "hello" [said user "a"])
              (reply_with 200 []) (VObj []) eq_refl
              ltac:(discriminate) ltac:(discriminate) eq_refl)
    as (H1 & H2 & _).
  split; [exact H1 | exact H2].
Defined.

Lemma run_events_app a : forall b u,
  run_events (a ++ b) u
  = match run_events a u with
    | Some u' => run_events b u'
    | None => None
    end.
Proof.
  induction a as [| e a IH]; intros b u; simpl; [reflexivity |].
  destruct (enabled u e); [apply IH | reflexivity].
Qed.

(** X14. A whole conversation from the initial state.  Start, a 200 response
    with a non-empty session identifier, typing a text with a visible
    character, and a submit are all offered by the form in that order; they
    issue exactly two requests, the start and one chat request carrying that
    identifier and that text; and when the chat call settles the state is
    what [sendMessage] makes of the outcome from a transcript holding just
    the user message, with nothing outstanding. *)
Theorem conversation_from_scratch sid text o :
  sid <> [] ->
  existsb (fun c => negb (is_space c)) text = true ->
  run_events
    [ClickStart;
     Settle 0 (Resolved (reply_with 200 [(lit "session_id", VStr sid)]));
     Change text;
     Submit;
     Settle 0 o] ui_initial
  = Some
      {| world :=
           exec (sendMessage_resume o)
             {| sessionId := VStr sid;
                messages := [{| role := user; content := VStr text |}];
                input := []; loading := true; console := [];
                network := [start_request;
                            chat_request (VStr sid) (VStr text)] |};
         pending := [] |}.
Proof.
  intros Hs Ht.
  set (w3 := {| sessionId := VStr sid; messages := []; input := text;
                loading := false; console := [];
                network := [start_request] |}).
  assert (E3 : run_events
                 [ClickStart;
                  Settle 0 (Resolved (reply_with 200 [(lit "session_id", VStr sid)]));
                  Change text] ui_initial
               = Some {| world := w3; pending := [] |}).
  { destruct sid as [| c sid']; [congruence | reflexivity]. }
  assert (Hc : can_send w3 = true).
  { apply guard_can_send_intro; [exact Ht |].
    destruct sid; [congruence | reflexivity]. }
  change [ClickStart;
          Settle 0 (Resolved (reply_with 200 [(lit "session_id", VStr sid)]));
          Change text; Submit; Settle 0 o]
    with ([ClickStart;
           Settle 0 (Resolved (reply_with 200 [(lit "session_id", VStr sid)]));
           Change text] ++ [Submit; Settle 0 o]).
  rewrite run_events_app, E3.
  cbn [run_events].
  assert (En : enabled {| world := w3; pending := [] |} Submit = true).
  { destruct sid; [congruence | reflexivity]. }
  rewrite En.
  assert (S4 : step {| world := w3; pending := [] |} Submit
               = {| world := exec sendMessage_invoke w3; pending := [HSend] |}).
  { unfold step, call, invoke_part, exec. cbn [world pending].
    now rewrite (sendMessage_invoke_ok w3 Hc). }
  rewrite S4. unfold exec at 2. rewrite (sendMessage_invoke_ok w3 Hc).
  reflexivity.
Qed.

Lemma conversation_from_scratch_witness :
  messages (world (after (exchange_events "s1" "deploy app"
                            ++ [Settle 0 (Resolved (reply_with 200 deploying))])))
  = [said user "deploy app"; said assistant "Deploying..."].
Proof.
  unfold after, exchange_events. cbn [app].
  rewrite (conversation_from_scratch (lit "s1") (lit "deploy app")
             (Resolved (reply_with 200 deploying))
             ltac:(discriminate) eq_refl).
  reflexivity.
Defined.

Ltac start_fails :=
  solve [split; [left; repeat split; eexists; reflexivity | repeat split]].

Ltac start_passes :=
  solve [split; [right; split; reflexivity | repeat split]].

(** X15. A start is all or nothing.  For every state and every outcome of
    the call, [startSession] issues one request and then either fails as a
    whole (identifier and transcript kept, one console entry) or goes through
    as a whole (transcript emptied, nothing logged); it never replaces the
    identifier while keeping the old transcript.  In both cases the input is
    kept and the flag ends down. *)
Theorem start_all_or_nothing o w :
  let w' := startSession_run o w in
  ((sessionId w' = sessionId w /\ messages w' = messages w
    /\ exists e, console w'
                 = console w ++ [LogError (lit "Error starting session:") e])
   \/ (messages w' = [] /\ console w' = console w))
  /\ network w' = network w ++ [start_request]
  /\ input w' = input w
  /\ loading w' = false.
Proof.
  unfold startSession_run. rewrite startSession_invoke_eq.
  unfold exec, startSession_resume, try_catch_finally, bind, settled, json,
    get_prop.
  destruct o as [| r]; simpl; [start_fails |].
  destruct (payload r) as [data |]; simpl; [| start_fails].
  destruct data as [| | b | x | s | items | fields]; simpl;
    try start_fails; try start_passes.
  destruct (lookup_field (lit "session_id") fields); simpl; start_passes.
Qed.


